(** * The HTTP wrapper of the MCP server: connection lifecycle and forwarding

    A shallow embedding of the reconnecting wrapper (the script with
    [initializeMcpClient], [setupConnectionMonitoring], [sendToMcpServer] and
    the [/tools/get-cookie] route), followed by the properties of it that the
    specification states.

    The wrapper is a single-threaded Node.js program: a piece of code runs
    from one [await] to the next without interruption, and between two such
    pieces any other callback may run.  An async function is therefore a tree
    ([Prog]) whose nodes read or write the module-level variables or suspend
    on a promise; the event loop ([step]) resumes suspended functions in any
    order.

    The routes of the HTTP server are in [Server]; the first version of the
    wrapper, which does not reconnect, is in [Simple].

    Left out: what [console.log] prints (a template literal that is logged is
    still evaluated, since it can throw); the script that spawns the wrapper;
    [process.exit] and [server.close] in the signal handlers (the model lets
    the event loop run on after a signal, as the program does until the
    server has closed).  Promises of the client settle with a value or reject
    with an [Error] object. *)

From Stdlib Require Import ZArith DecimalString.
From stdpp Require Import base list strings.

Set Warnings "-register-all".

Open Scope string_scope.
Open Scope list_scope.
Open Scope nat_scope.

(* ===================================================================== *)
(** ** JavaScript values *)
(* ===================================================================== *)

(** The values that [JSON.parse] and the MCP client hand to the wrapper.
    Of the numbers only the integers are modelled: [JNum n] is the Number
    nearest to [n] (so [JNum 0] is also [-0]).  [JObj] lists the own
    properties of an object, each key once; such an object has
    [Object.prototype] as its prototype and no callable property. *)
Inductive JsValue : Type :=
| JUndefined
| JNull
| JBool (b : bool)
| JNum (n : Z)
| JStr (s : string)
| JArr (items : list JsValue)
| JObj (fields : list (string * JsValue)).

(** An [Error] object; only its [message] is ever read. *)
Record Err : Type := { message : string }.

(** [!v] is [negb (truthy v)]. *)
Definition truthy (v : JsValue) : bool :=
  match v with
  | JUndefined | JNull => false
  | JBool b => b
  | JNum n => negb (n =? 0)%Z
  | JStr s => negb (String.eqb s "")
  | JArr _ | JObj _ => true
  end.

(** [fields.key] on the property list of an object. *)
Fixpoint field (key : string) (fields : list (string * JsValue)) : JsValue :=
  match fields with
  | [] => JUndefined
  | (k, v) :: rest => if String.eqb k key then v else field key rest
  end.

(** [const { url: x } = v]: reading property [url] off [null] or
    [undefined] throws a TypeError (its message is never read); strings,
    numbers, booleans and arrays have no such property. *)
Definition destructure_url (v : JsValue) : Err + JsValue :=
  match v with
  | JUndefined =>
      inl {| message := "Cannot destructure property 'url' of 'JSON.parse(...)' as it is undefined." |}
  | JNull =>
      inl {| message := "Cannot destructure property 'url' of 'JSON.parse(...)' as it is null." |}
  | JObj fields => inr (field "url" fields)
  | _ => inr JUndefined
  end.

(** *** Numbers as text

    [Number::toString] for the integers.  Below [2^53] an integer is a
    Number and its text is its decimal digits; above, the text is the
    shortest decimal number that converts to the nearest Number, written in
    full below [10^21] and with an exponent from there on. *)

(** The decimal digits of an integer. *)
Definition decimal (n : Z) : string := NilZero.string_of_int (Z.to_int n).

(** How many decimal digits [n > 0] has. *)
Definition digits (n : Z) : Z := Z.of_nat (String.length (decimal n)).

(** The Number nearest to the integer [v >= 2^53] (ties to the even
    mantissa): its mantissa, [2^52 <= m < 2^53], and exponent. *)
Definition nearest_double (v : Z) : Z * Z :=
  let e := (Z.log2 v - 52)%Z in
  let m := (v / 2 ^ e)%Z in
  let rest := (v mod 2 ^ e)%Z in
  let half := (2 ^ (e - 1))%Z in
  let m := if (half <? rest)%Z || ((rest =? half)%Z && Z.odd m)
           then (m + 1)%Z else m in
  if (m =? 2 ^ 53)%Z then ((2 ^ 52)%Z, (e + 1)%Z) else (m, e).

(** The decimal numbers with [k] digits next to [x] that convert to the Number
    [x = m * 2^e]; the nearer one first. *)
Definition candidates (m e : Z) (k : Z) : list Z :=
  let x := (m * 2 ^ e)%Z in
  let unit := (10 ^ (digits x - k))%Z in
  let below := (x / unit * unit)%Z in
  let above := (below + unit)%Z in
  (* four times the bounds of the interval that rounds to [x] *)
  let low := (4 * x - (if (m =? 2 ^ 52)%Z then 2 ^ e else 2 * 2 ^ e))%Z in
  let high := (4 * x + 2 * 2 ^ e)%Z in
  let fits (c : Z) :=
    if Z.even m then (low <=? 4 * c)%Z && (4 * c <=? high)%Z
    else (low <? 4 * c)%Z && (4 * c <? high)%Z in
  let ordered := if (above - x <? x - below)%Z then [above; below]
                 else if (x - below <? above - x)%Z then [below; above]
                 else if Z.even (below / unit) then [below; above]
                 else [above; below] in
  filter (fun c => Is_true (fits c)) ordered.

(** The shortest decimal number that converts to [x = m * 2^e], the nearest
    one if there are several ([Number::toString], step 5). *)
Fixpoint shortest (m e : Z) (k : Z) (tries : nat) : Z :=
  match tries with
  | 0 => (m * 2 ^ e)%Z
  | S tries =>
      match candidates m e k with
      | c :: _ => c
      | [] => shortest m e (k + 1)%Z tries
      end
  end.

(** [s] without its zeros at the end. *)
Fixpoint significand (s : string) : string :=
  match s with
  | EmptyString => EmptyString
  | String c rest =>
      match significand rest with
      | EmptyString => if String.eqb (String c EmptyString) "0" then EmptyString else String c EmptyString
      | rest' => String c rest'
      end
  end.

(** [Number::toString] for a positive integer that is written [c] in
    decimal digits: in full below [10^21], else with an exponent. *)
Definition positional (c : Z) : string :=
  if (digits c <=? 21)%Z then decimal c
  else
    match significand (decimal c) with
    | EmptyString => decimal c
    | String d EmptyString => String d ("e+" +:+ decimal (digits c - 1))
    | String d more => String d ("." +:+ more +:+ "e+" +:+ decimal (digits c - 1))
    end.

(** [String(n)] for the Number nearest to the integer [n]. *)
Definition number_text (n : Z) : string :=
  let v := Z.abs n in
  let sign := if (n <? 0)%Z then "-" else "" in
  if (v <? 2 ^ 53)%Z then sign +:+ decimal v
  else
    let (m, e) := nearest_double v in
    if (971 <? e)%Z then sign +:+ "Infinity"
    else sign +:+ positional (shortest m e 1 17).

(** *** Values as text *)

(** [fields] has an own property [key]. *)
Definition has_key (key : string) (fields : list (string * JsValue)) : bool :=
  existsb (fun kv => String.eqb kv.1 key) fields.

(** The TypeError of a conversion that finds no primitive value. *)
Definition unprintable : Err :=
  {| message := "Cannot convert object to primitive value" |}.

(** The text a template literal [`${v}`] inserts, or the TypeError it
    throws.  An array is joined with commas, [null] and [undefined] items
    as the empty text.  An object prints as [[object Object]], unless it has
    an own property [toString]: that one, not being callable, hides
    [Object.prototype.toString], and [valueOf] gives back the object. *)
Fixpoint to_text (v : JsValue) : Err + string :=
  match v with
  | JUndefined => inr "undefined"
  | JNull => inr "null"
  | JBool true => inr "true"
  | JBool false => inr "false"
  | JNum n => inr (number_text n)
  | JStr s => inr s
  | JArr items =>
      (fix join (l : list JsValue) : Err + string :=
         match l with
         | [] => inr ""
         | x :: rest =>
             match (match x with
                    | JUndefined | JNull => inr ""
                    | _ => to_text x
                    end) with
             | inl e => inl e
             | inr here =>
                 match rest with
                 | [] => inr here
                 | _ => match join rest with
                        | inl e => inl e
                        | inr more => inr (here +:+ "," +:+ more)
                        end
                 end
             end
         end) items
  | JObj fields =>
      if has_key "toString" fields then inl unprintable
      else inr "[object Object]"
  end.

(** [hay.includes(needle)] *)
Fixpoint includes (needle hay : string) : bool :=
  String.prefix needle hay ||
  match hay with
  | EmptyString => false
  | String _ rest => includes needle rest
  end.

(* ===================================================================== *)
(** ** Module-level state *)
(* ===================================================================== *)

Definition PORT : N := 12307.
Definition MCP_SERVER_URL : string := "http://127.0.0.1:12306/mcp".
Definition MAX_RECONNECT_ATTEMPTS : nat := 5.
Definition RECONNECT_DELAY : N := 2000.

(** A [Client] object is known by the order of its creation, a timer by the
    order of its [setInterval] call. *)
Definition Handle := nat.
Definition TimerId := nat.

(** The four [let] variables of the script, and what the runtime holds for
    it: how many [Client] objects were made, which of them have not had their
    [close()] settle yet ([live]), the running [setInterval] timers and the
    pending [setTimeout] callbacks (each by its delay). *)
Record State : Type := {
  mcpClient : option Handle;
  isInitializing : bool;
  isConnected : bool;
  reconnectAttempts : nat;
  clients : nat;
  live : list Handle;
  timers : nat;
  intervals : list TimerId;
  timeouts : list N
}.

Definition initial : State :=
  {| mcpClient := None; isInitializing := false; isConnected := false;
     reconnectAttempts := 0; clients := 0; live := []; timers := 0;
     intervals := []; timeouts := [] |}.

Definition set_mcpClient (c : option Handle) (w : State) : State :=
  {| mcpClient := c; isInitializing := isInitializing w;
     isConnected := isConnected w; reconnectAttempts := reconnectAttempts w;
     clients := clients w; live := live w; timers := timers w;
     intervals := intervals w; timeouts := timeouts w |}.

Definition set_isInitializing (b : bool) (w : State) : State :=
  {| mcpClient := mcpClient w; isInitializing := b;
     isConnected := isConnected w; reconnectAttempts := reconnectAttempts w;
     clients := clients w; live := live w; timers := timers w;
     intervals := intervals w; timeouts := timeouts w |}.

Definition set_isConnected (b : bool) (w : State) : State :=
  {| mcpClient := mcpClient w; isInitializing := isInitializing w;
     isConnected := b; reconnectAttempts := reconnectAttempts w;
     clients := clients w; live := live w; timers := timers w;
     intervals := intervals w; timeouts := timeouts w |}.

Definition set_reconnectAttempts (n : nat) (w : State) : State :=
  {| mcpClient := mcpClient w; isInitializing := isInitializing w;
     isConnected := isConnected w; reconnectAttempts := n;
     clients := clients w; live := live w; timers := timers w;
     intervals := intervals w; timeouts := timeouts w |}.

(** [mcpClient = new Client(...)]: a fresh object, live from now on. *)
Definition new_Client (w : State) : State :=
  {| mcpClient := Some (clients w); isInitializing := isInitializing w;
     isConnected := isConnected w; reconnectAttempts := reconnectAttempts w;
     clients := S (clients w); live := clients w :: live w;
     timers := timers w; intervals := intervals w; timeouts := timeouts w |}.

(** The promise of [c.close()] has settled. *)
Definition closed (c : Handle) (w : State) : State :=
  {| mcpClient := mcpClient w; isInitializing := isInitializing w;
     isConnected := isConnected w; reconnectAttempts := reconnectAttempts w;
     clients := clients w; live := filter (fun h => h ≠ c) (live w);
     timers := timers w; intervals := intervals w; timeouts := timeouts w |}.

(** [setInterval(callback, 30000)]; the timer's id is the value of
    [timers] before the call. *)
Definition setInterval (w : State) : State :=
  {| mcpClient := mcpClient w; isInitializing := isInitializing w;
     isConnected := isConnected w; reconnectAttempts := reconnectAttempts w;
     clients := clients w; live := live w; timers := S (timers w);
     intervals := timers w :: intervals w; timeouts := timeouts w |}.

Definition clearInterval (t : TimerId) (w : State) : State :=
  {| mcpClient := mcpClient w; isInitializing := isInitializing w;
     isConnected := isConnected w; reconnectAttempts := reconnectAttempts w;
     clients := clients w; live := live w; timers := timers w;
     intervals := filter (fun i => i ≠ t) (intervals w);
     timeouts := timeouts w |}.

(** [setTimeout(callback, delay)] *)
Definition setTimeout (delay : N) (w : State) : State :=
  {| mcpClient := mcpClient w; isInitializing := isInitializing w;
     isConnected := isConnected w; reconnectAttempts := reconnectAttempts w;
     clients := clients w; live := live w; timers := timers w;
     intervals := intervals w; timeouts := timeouts w ++ [delay] |}.

(** [mcpClient] is not [null] *)
Definition has_client (w : State) : bool :=
  match mcpClient w with Some _ => true | None => false end.

(* ===================================================================== *)
(** ** Async functions *)
(* ===================================================================== *)

(** A JSON-RPC message as [sendToMcpServer] receives it. *)
Record Message : Type := {
  jsonrpc : string;
  id : JsValue;
  method : string;
  params : list (string * JsValue)
}.

(** The promises the wrapper awaits: the four methods of the MCP client it
    calls, and the promise of one of its own async functions ([Tick]: the
    function has finished, its caller goes on in a later turn). *)
Inductive ExtCall : Type :=
| Close (c : Handle)
| Connect (c : Handle) (url : string)
| CallTool (c : Handle) (name arguments : JsValue) (timeout : N)
| SendRequest (c : Handle) (msg : Message)
| Tick.

(** How a promise settles: with a value, or rejected with an [Error] object.
    (A client that rejects with something that is not an [Error], so that
    reading [error.message.includes] throws, is not modelled.) *)
Inductive Answer : Type :=
| Resolved (v : JsValue)
| Rejected (e : Err).

(** The code of an async function from where it stands: finished ([Ret],
    [Throw]), reading or writing the state, or suspended on a promise.
    [OutOfFuel] cuts the recursion of [sendToMcpServer]. *)
Inductive Prog (R : Type) : Type :=
| Ret (r : R)
| Throw (e : Err)
| Get (k : State -> Prog R)
| Put (f : State -> State) (k : Prog R)
| Await (c : ExtCall) (k : Answer -> Prog R)
| OutOfFuel.

Arguments Ret {R} r.
Arguments Throw {R} e.
Arguments Get {R} k.
Arguments Put {R} f k.
Arguments Await {R} c k.
Arguments OutOfFuel {R}.

Fixpoint bind {A B : Type} (p : Prog A) (f : A -> Prog B) : Prog B :=
  match p with
  | Ret a => f a
  | Throw e => Throw e
  | Get k => Get (fun w => bind (k w) f)
  | Put g k => Put g (bind k f)
  | Await c k => Await c (fun a => bind (k a) f)
  | OutOfFuel => OutOfFuel
  end.

(** [try { p } catch (e) { h e }] *)
Fixpoint try_catch {A : Type} (p : Prog A) (h : Err -> Prog A) : Prog A :=
  match p with
  | Ret a => Ret a
  | Throw e => h e
  | Get k => Get (fun w => try_catch (k w) h)
  | Put g k => Put g (try_catch k h)
  | Await c k => Await c (fun a => try_catch (k a) h)
  | OutOfFuel => OutOfFuel
  end.

(** [try { p } finally { fin }] for a [finally] block that is one
    assignment. *)
Fixpoint try_finally {A : Type} (p : Prog A) (fin : State -> State) : Prog A :=
  match p with
  | Ret a => Put fin (Ret a)
  | Throw e => Put fin (Throw e)
  | Get k => Get (fun w => try_finally (k w) fin)
  | Put g k => Put g (try_finally k fin)
  | Await c k => Await c (fun a => try_finally (k a) fin)
  | OutOfFuel => OutOfFuel
  end.

(** [await c]: the value the promise resolves to, or its rejection thrown. *)
Definition await (c : ExtCall) : Prog JsValue :=
  Await c (fun a => match a with
                    | Resolved v => Ret v
                    | Rejected e => Throw e
                    end).

(** [await f()] for an async function [f] of the wrapper: [f] runs at once,
    up to its own first [await]; the caller resumes in a later turn, after
    [f] has returned or thrown. *)
Fixpoint await_async {A : Type} (p : Prog A) : Prog A :=
  match p with
  | Ret a => Await Tick (fun _ => Ret a)
  | Throw e => Await Tick (fun _ => Throw e)
  | Get k => Get (fun w => await_async (k w))
  | Put g k => Put g (await_async k)
  | Await c k => Await c (fun a => await_async (k a))
  | OutOfFuel => OutOfFuel
  end.

(** [f()] without [await]: the result is dropped, a rejection is only
    logged (the [unhandledRejection] handler). *)
Definition forget {A : Type} (p : Prog A) : Prog unit :=
  try_catch (bind p (fun _ => Ret tt)) (fun _ => Ret tt).

#[global] Instance Prog_ret : MRet Prog := @Ret.
#[global] Instance Prog_bind : MBind Prog := fun A B f p => bind p f.

(** [mcpClient.m(...)]: the client the variable holds at the call. *)
Definition with_client {A : Type} (m : string) (k : Handle -> Prog A) : Prog A :=
  Get (fun w =>
    match mcpClient w with
    | Some c => k c
    | None =>
        Throw {| message := "Cannot read properties of null (reading '" +:+ m +:+ "')" |}
    end).

(* ===================================================================== *)
(** ** The connection supervisor *)
(* ===================================================================== *)

(** The body of the [setInterval] callback of [setupConnectionMonitoring]
    is [healthCheck] below; [setupConnectionMonitoring] itself only starts
    the timer. *)
Definition setupConnectionMonitoring : Prog unit :=
  Get (fun w =>
    if negb (has_client w) then Ret tt
    else Put setInterval (Ret tt)).

(** The [catch] block of [initializeMcpClient]. *)
Definition initialize_failed (error : Err) : Prog bool :=
  Put (set_isConnected false)
  (Get (fun w =>
     if (reconnectAttempts w <? MAX_RECONNECT_ATTEMPTS)%nat
     then Put (setTimeout RECONNECT_DELAY) (Ret false)
     else Ret false)).

Definition initializeMcpClient : Prog bool :=
  Get (fun w =>
    if isInitializing w then Ret false
    else if isConnected w && has_client w then Ret true
    else
      Put (set_isInitializing true)
      (try_finally
         (try_catch
            (Get (fun w =>
               match mcpClient w with
               | Some c =>
                   try_catch (await (Close c);; Ret tt) (fun closeError => Ret tt);;
                   Put (set_mcpClient None) (Ret tt)
               | None => Ret tt
               end);;
             Put new_Client (Ret tt);;
             with_client "connect" (fun c => await (Connect c MCP_SERVER_URL));;
             Put (set_isConnected true) (Ret tt);;
             Put (set_reconnectAttempts 0) (Ret tt);;
             setupConnectionMonitoring;;
             Ret true)
            initialize_failed)
         (set_isInitializing false))).

(** The callback of a pending reconnection timer. *)
Definition reconnect_callback : Prog unit :=
  Put (fun w => set_reconnectAttempts (S (reconnectAttempts w)) w)
  (forget initializeMcpClient).

(** The callback of the startup timer ([server.listen]). *)
Definition startup_callback : Prog unit :=
  forget (await_async initializeMcpClient).

Definition ping : Message :=
  {| jsonrpc := "2.0"; id := JStr "health-check"; method := "ping"; params := [] |}.

(** The callback of the health timer [t] (its [healthCheckInterval]). *)
Definition healthCheck (t : TimerId) : Prog unit :=
  forget
    (Get (fun w =>
       if negb (has_client w) || negb (isConnected w)
       then Put (clearInterval t) (Ret tt)
       else
         try_catch
           (with_client "sendRequest" (fun c => await (SendRequest c ping));;
            Ret tt)
           (fun error =>
              Put (set_isConnected false) (Ret tt);;
              Put (clearInterval t) (Ret tt);;
              await_async initializeMcpClient;;
              Ret tt))).

(* ===================================================================== *)
(** ** The request forwarder *)
(* ===================================================================== *)

Definition not_ready : Err :=
  {| message := "MCP client not initialized or not connected" |}.

(** [new Error(`MCP client error: ${error.message}`)] *)
Definition client_error (error : Err) : Err :=
  {| message := "MCP client error: " +:+ message error |}.

Definition is_connection_error (error : Err) : bool :=
  includes "connection" (message error) || includes "closed" (message error).

Fixpoint sendToMcpServer (fuel : nat) (msg : Message) : Prog JsValue :=
  match fuel with
  | 0 => OutOfFuel
  | S fuel =>
      Get (fun w =>
        if negb (has_client w) || negb (isConnected w) then Throw not_ready
        else
          try_catch
            (if String.eqb (method msg) "tools/call"
             then with_client "callTool" (fun c =>
                    await (CallTool c (field "name" (params msg))
                                      (field "arguments" (params msg)) 30000))
             else with_client "sendRequest" (fun c => await (SendRequest c msg)))
            (fun error =>
               if is_connection_error error
               then
                 Put (set_isConnected false) (Ret tt);;
                 await_async initializeMcpClient;;
                 Get (fun w =>
                   if isConnected w && has_client w
                   then await_async (sendToMcpServer fuel msg)
                   else Throw (client_error error))
               else Throw (client_error error)))
  end.

(* ===================================================================== *)
(** ** The [POST /tools/get-cookie] route *)
(* ===================================================================== *)

(** What [JSON.parse(body)] gives. *)
Inductive Parsed : Type :=
| SyntaxError (e : Err)
| Value (v : JsValue).

(** [res.writeHead(status, ...); res.end(JSON.stringify(body))] *)
Record Response : Type := { status : nat; body : JsValue }.

Definition message_value (m : Message) : JsValue :=
  JObj [("jsonrpc", JStr (jsonrpc m)); ("id", id m);
        ("method", JStr (method m)); ("params", JObj (params m))].

Definition get_cookie_message (targetUrl : JsValue) : Message :=
  {| jsonrpc := "2.0"; id := JNum 1; method := "tools/call";
     params := [("name", JStr "chrome_get_cookie");
                ("arguments", JObj [("url", targetUrl)])] |}.

Definition url_required : Response :=
  {| status := 400; body := JObj [("error", JStr "URL parameter is required")] |}.

Definition invalid_json : Response :=
  {| status := 400; body := JObj [("error", JStr "Invalid JSON in request body")] |}.

Definition client_not_ready (w : State) : Response :=
  {| status := 503;
     body := JObj [("error", JStr "MCP client not ready");
                   ("message", JStr "Please wait for MCP client initialization");
                   ("status", JObj [("isConnected", JBool (isConnected w));
                                    ("isInitializing", JBool (isInitializing w));
                                    ("reconnectAttempts",
                                     JNum (Z.of_nat (reconnectAttempts w)))])] |}.

(** [text] is what [`${targetUrl}`] gave. *)
Definition cookies_retrieved (text : string) (targetUrl response : JsValue) : Response :=
  {| status := 200;
     body := JObj [("success", JBool true);
                   ("message", JStr ("Cookies retrieved from " +:+ text));
                   ("response", response);
                   ("request", message_value (get_cookie_message targetUrl))] |}.

Definition communication_failed (mcpError : Err) : Response :=
  {| status := 500;
     body := JObj [("error", JStr "Failed to communicate with MCP server");
                   ("details", JStr (message mcpError));
                   ("suggestion",
                    JStr ("Make sure the MCP server is running at " +:+ MCP_SERVER_URL))] |}.

(** Evaluating the template literal [`... ${v}`]. *)
Definition template (v : JsValue) : Prog string :=
  match to_text v with
  | inl e => Throw e
  | inr text => Ret text
  end.

(** The [req.on('end', ...)] callback of the route, on the parsed body.
    The first [template] is the argument of the [console.log] that follows
    the test of [targetUrl]. *)
Definition get_cookie (fuel : nat) (parsed : Parsed) : Prog Response :=
  try_catch
    (targetUrl ← match parsed with
                 | SyntaxError e => Throw e
                 | Value v => match destructure_url v with
                              | inl e => Throw e
                              | inr u => Ret u
                              end
                 end;
     if negb (truthy targetUrl) then Ret url_required
     else
       template targetUrl;;
       Get (fun w =>
         if negb (has_client w) || negb (isConnected w)
         then Ret (client_not_ready w)
         else
           try_catch
             (response ← await_async (sendToMcpServer fuel (get_cookie_message targetUrl));
              text ← template targetUrl;
              Ret (cookies_retrieved text targetUrl response))
             (fun mcpError => Ret (communication_failed mcpError))))
    (fun parseError => Ret invalid_json).

(* ===================================================================== *)
(** ** Running the code *)
(* ===================================================================== *)

Inductive Outcome (R : Type) : Type :=
| Returned (r : R)
| Thrown (e : Err).

Arguments Returned {R} r.
Arguments Thrown {R} e.

(** What the settling of a promise does to the runtime's part of the
    state. *)
Definition settled (c : ExtCall) (w : State) : State :=
  match c with
  | Close h => closed h w
  | _ => w
  end.

(** One turn: the code runs up to its next [await], or to its end. *)
Fixpoint turn {R : Type} (p : Prog R) (w : State) : State * Prog R :=
  match p with
  | Get k => turn (k w) w
  | Put f k => turn k (f w)
  | _ => (w, p)
  end.

(** A call run alone to its end: the promises it awaits settle as
    [answers] say, one answer each, and nothing else runs in between.  The
    result comes with the calls made on the client, in order. *)
Fixpoint run {R : Type} (p : Prog R) (answers : list Answer) (w : State)
  : option (State * Outcome R * list ExtCall) :=
  match p with
  | Ret r => match answers with
             | [] => Some (w, Returned r, [])
             | _ => None
             end
  | Throw e => match answers with
               | [] => Some (w, Thrown e, [])
               | _ => None
               end
  | Get k => run (k w) answers w
  | Put f k => run k answers (f w)
  | Await Tick k => run (k (Resolved JUndefined)) answers w
  | Await c k =>
      match answers with
      | a :: rest =>
          match run (k a) rest (settled c w) with
          | Some (w', o, calls) => Some (w', o, c :: calls)
          | None => None
          end
      | [] => None
      end
  | OutOfFuel => None
  end.

(** The event loop.  A slot of [pool] holds an async function suspended on
    a promise, or [None] once it has finished. *)
Record System : Type := {
  world : State;
  pool : list (option (Prog unit))
}.

(** The handler of [SIGINT] and of [SIGTERM]: it closes the client
    [mcpClient] holds, without the guard and without clearing [mcpClient] or
    [isConnected], and then asks the server to close (the process exits once
    it has). *)
Definition shutdown_callback : Prog unit :=
  forget
    (Get (fun w =>
       match mcpClient w with
       | Some c => try_catch (await (Close c);; Ret tt) (fun error => Ret tt)
       | None => Ret tt
       end)).

(** What can happen: the startup timer fires; the body of a
    [POST /tools/get-cookie] request has been read ([fuel] bounds the
    forwarder's retries for it); a pending reconnection timer fires; the
    health timer [t] ticks; the promise that slot [i] is suspended on settles
    with [a]; the process gets [SIGINT] or [SIGTERM].  Time is left out:
    timers may fire at any moment. *)
Inductive Event : Type :=
| Startup
| PostGetCookie (fuel : nat) (parsed : Parsed)
| ReconnectTimer
| HealthTimer (t : TimerId)
| Settle (i : nat) (a : Answer)
| Signal.

Definition boot : System := {| world := initial; pool := [] |}.

Definition suspended (p : Prog unit) : option (Prog unit) :=
  match p with
  | Await _ _ => Some p
  | _ => None
  end.

Definition pop_timeout (w : State) : State :=
  {| mcpClient := mcpClient w; isInitializing := isInitializing w;
     isConnected := isConnected w; reconnectAttempts := reconnectAttempts w;
     clients := clients w; live := live w; timers := timers w;
     intervals := intervals w; timeouts := tail (timeouts w) |}.

(** What an event makes run: the state the code starts in, the pool with
    the slot the code runs for, that slot, and the code.  A callback that
    starts takes a new slot; a settling promise resumes the function
    suspended on it. *)
Definition dispatch (ev : Event) (s : System)
  : option (State * list (option (Prog unit)) * nat * Prog unit) :=
  let fresh := length (pool s) in
  match ev with
  | Startup => Some (world s, pool s ++ [None], fresh, startup_callback)
  | PostGetCookie fuel parsed =>
      Some (world s, pool s ++ [None], fresh, forget (get_cookie fuel parsed))
  | ReconnectTimer =>
      match timeouts (world s) with
      | [] => None
      | _ :: _ => Some (pop_timeout (world s), pool s ++ [None], fresh, reconnect_callback)
      end
  | HealthTimer t =>
      if bool_decide (t ∈ intervals (world s))
      then Some (world s, pool s ++ [None], fresh, healthCheck t)
      else None
  | Settle i a =>
      match pool s !! i with
      | Some (Some (Await c k)) => Some (settled c (world s), pool s, i, k a)
      | _ => None
      end
  | Signal => Some (world s, pool s ++ [None], fresh, shutdown_callback)
  end.

(** The states the world passes through in one turn. *)
Fixpoint passes {R : Type} (p : Prog R) (w : State) : list State :=
  match p with
  | Get k => passes (k w) w
  | Put f k => f w :: passes k (f w)
  | _ => []
  end.

(** One event: the code runs a turn, and what is left of it is stored. *)
Definition step (ev : Event) (s : System) : option System :=
  match dispatch ev s with
  | Some (w, tasks, i, p) =>
      let (w', p') := turn p w in
      Some {| world := w'; pool := <[i := suspended p']> tasks |}
  | None => None
  end.

(** The states the world passes through while an event is handled. *)
Definition during (ev : Event) (s : System) : list State :=
  match dispatch ev s with
  | Some (w, _, _, p) => w :: passes p w
  | None => []
  end.

Fixpoint exec (evs : list Event) (s : System) : option System :=
  match evs with
  | [] => Some s
  | ev :: rest =>
      match step ev s with
      | Some s' => exec rest s'
      | None => None
      end
  end.

Definition reachable (s : System) : Prop := ∃ evs, exec evs boot = Some s.


(* ===================================================================== *)
(** ** Notions the properties are stated with *)
(* ===================================================================== *)

(** The call on the client that [sendToMcpServer] makes for [msg]. *)
Definition link_call (msg : Message) (c : Handle) : ExtCall :=
  if String.eqb (method msg) "tools/call"
  then CallTool c (field "name" (params msg)) (field "arguments" (params msg)) 30000
  else SendRequest c msg.

(** The answers an initialize-attempt takes when the link opens: one for
    [close()] if there is a stale client, then the one of [connect]. *)
Definition open_answers (w : State) (closing : Answer) (v : JsValue) : list Answer :=
  match mcpClient w with
  | Some _ => [closing; Resolved v]
  | None => [Resolved v]
  end.

(** The state in which a retry starts: the fault was seen in [w], the stale
    client [c] was closed and a new link opened. *)
Definition reconnected (c : Handle) (w : State) : State :=
  set_isInitializing false
    (setInterval
       (set_reconnectAttempts 0
          (set_isConnected true
             (new_Client
                (set_mcpClient None
                   (closed c
                      (set_isInitializing true
                         (set_isConnected false w)))))))).

(** [guarded p w]: from [w] on, the code [p] is suspended only with
    [isInitializing] set and ends only with it cleared, provided the flag is
    still set whenever the code is resumed (which the other callbacks see
    to: [guard_invariant] below). *)
Fixpoint guarded {R : Type} (p : Prog R) (w : State) : Prop :=
  match p with
  | Ret _ | Throw _ => isInitializing w = false
  | OutOfFuel => False
  | Get k => guarded (k w) w
  | Put f k => guarded k (f w)
  | Await c k =>
      isInitializing w = true ∧
      ∀ a w', isInitializing w' = true → guarded (k a) (settled c w')
  end.

(** *** Sample data *)

Definition done : Answer := Resolved JUndefined.
Definition connection_closed : Err := {| message := "Connection closed" |}.
Definition refused : Err := {| message := "fetch failed" |}.
Definition timed_out : Err := {| message := "Request timed out" |}.
Definition example_url : JsValue := JStr "https://example.com".
Definition example_body : JsValue := JObj [("url", example_url)].

(** The state once the startup call has opened the link. *)
Definition connected : State :=
  {| mcpClient := Some 0; isInitializing := false; isConnected := true;
     reconnectAttempts := 0; clients := 1; live := [0]; timers := 1;
     intervals := [0]; timeouts := [] |}.

(** *** Open attempts that fail in a row *)

Definition first_attempt_fails (e : Err) : list Event :=
  [Startup; Settle 0 (Rejected e); Settle 0 done].

Definition retry_fails (k : nat) (closing : Answer) (e : Err) : list Event :=
  [ReconnectTimer; Settle k closing; Settle k (Rejected e)].

(** [n] open attempts in a row, all failing: the startup call and then the
    scheduled retries.  Attempt [k] (counted from 0) fails with [e k]; the
    [close()] of the client left by the attempt before it settles as
    [closing k]. *)
Definition failed_opens (n : nat) (closing : nat -> Answer) (e : nat -> Err) : list Event :=
  match n with
  | 0 => []
  | S m => first_attempt_fails (e 0)
           ++ flat_map (fun k => retry_fails k (closing k) (e k)) (seq 1 m)
  end.

(** No async function is suspended. *)
Definition idle (s : System) : Prop := Forall (fun t => t = None) (pool s).

(** The state after [n] failed open attempts in a row, for [1 <= n <= 6]. *)
Definition after_failures (n : nat) : State :=
  {| mcpClient := Some (n - 1); isInitializing := false; isConnected := false;
     reconnectAttempts := n - 1; clients := n; live := [n - 1]; timers := 0;
     intervals := [];
     timeouts := if n - 1 <? MAX_RECONNECT_ATTEMPTS then [RECONNECT_DELAY] else [] |}.

(** [n] connection faults in a row, each followed by a reconnection that
    succeeds. *)
Fixpoint faults (n : nat) : list Answer :=
  match n with
  | 0 => []
  | S m => Rejected connection_closed :: done :: done :: faults m
  end.

(** The retry chains of two forwarded calls that faulted one after the
    other. *)
Definition two_chains : list Event :=
  [Startup; Settle 0 done; Settle 0 done;
   PostGetCookie 2 (Value example_body); PostGetCookie 2 (Value example_body);
   Settle 1 (Rejected connection_closed); Settle 1 done; Settle 1 (Rejected refused);
   Settle 1 done; Settle 1 done;
   Settle 2 (Rejected connection_closed); Settle 2 done; Settle 2 (Rejected refused);
   Settle 2 done; Settle 2 done].


(** A forwarded call faults with a closed connection and the forwarder's
    reconnection is under way ([connect] is awaited). *)
Definition forwarder_reconnecting : list Event :=
  [Startup; Settle 0 done; Settle 0 done;
   PostGetCookie 2 (Value example_body);
   Settle 1 (Rejected connection_closed);
   Settle 1 done].

(** ... and that reconnection succeeds. *)
Definition forwarder_reconnects : list Event :=
  forwarder_reconnecting ++ [Settle 1 done].

(* ===================================================================== *)
(** ** The initialization guard as a protocol between the callbacks *)
(* ===================================================================== *)

(** What only an initialize-attempt writes: the client variable and the
    runtime's record of the clients. *)
Definition link_fields (w : State) : option Handle * list Handle * nat :=
  (mcpClient w, live w, clients w).

(** At most one client is live, and it is the one [mcpClient] holds. *)
Definition one_link (w : State) : Prop :=
  live w = [] ∨ ∃ h, live w = [h] ∧ mcpClient w = Some h.

(** Who holds the guard after an assignment: a function that holds it
    keeps it while [isInitializing] stays set; one that does not hold it
    takes it by setting the flag. *)
Definition holds_after (holding : bool) (w w' : State) : bool :=
  if holding then isInitializing w'
  else negb (isInitializing w) && isInitializing w'.

(** [respects p holding w post]: the code [p], started in [w] by a
    function that holds the guard or not, keeps to the protocol up to its
    end, where [post] holds.

    - No assignment leaves more than one client live.
    - Without the guard it writes none of [link_fields] and never clears a
      flag it did not set.
    - Whenever it suspends, [one_link] holds.
    - It may count on being resumed in a state where [one_link] holds and,
      while it holds the guard, where the flag is set and [mcpClient] is as
      it left it.  (The runtime's record may have changed: a signal handler
      closes the client without the guard.) *)
Fixpoint respects {R : Type} (p : Prog R) (holding : bool) (w : State)
         (post : Outcome R -> bool -> State -> Prop) : Prop :=
  match p with
  | Ret r => post (Returned r) holding w
  | Throw e => post (Thrown e) holding w
  | OutOfFuel => holding = false ∧ one_link w
  | Get k => respects (k w) holding w post
  | Put f k =>
      length (live (f w)) ≤ 1 ∧
      (holding = false →
       link_fields (f w) = link_fields w ∧
       (isInitializing w = true → isInitializing (f w) = true)) ∧
      respects k (holds_after holding w (f w)) (f w) post
  | Await c k =>
      one_link w ∧
      ∀ a w',
        one_link w' →
        (holding = true →
         mcpClient w' = mcpClient w ∧ isInitializing w' = true) →
        respects (k a) holding (settled c w') post
  end.

(** The end of a callback: the guard is released and [one_link] holds. *)
Definition released {R : Type} (o : Outcome R) (holding : bool) (w : State) : Prop :=
  holding = false ∧ one_link w.

(** [initializeMcpClient] returns, released, and never throws. *)
Definition returned_released {R : Type} (o : Outcome R) (holding : bool) (w : State) : Prop :=
  holding = false ∧ one_link w ∧ ∃ r, o = Returned r.

(** Who holds the guard at the end of a turn. *)
Fixpoint turn_holds {R : Type} (p : Prog R) (holding : bool) (w : State) : bool :=
  match p with
  | Get k => turn_holds (k w) holding w
  | Put f k => turn_holds k (holds_after holding w (f w)) (f w)
  | _ => holding
  end.

(** A suspended callback that respects the protocol. *)
Definition waits (t : Prog unit) (holding : bool) (w : State) : Prop :=
  match t with
  | Await _ _ => respects t holding w released
  | _ => False
  end.

(** The invariant of the event loop: [one_link] holds; every suspended
    callback respects the protocol; the flag is set exactly when one of them
    holds the guard, and that one is suspended inside its attempt. *)
Definition guard_invariant (s : System) : Prop :=
  one_link (world s) ∧
  ∃ holder : option nat,
    (∀ i t, pool s !! i = Some (Some t) →
            waits t (bool_decide (holder = Some i)) (world s)) ∧
    match holder with
    | Some j => isInitializing (world s) = true ∧ ∃ t, pool s !! j = Some (Some t)
    | None => isInitializing (world s) = false
    end.

(** What [turn_invariant] asks of the code an event makes run. *)
Definition ready (holder : option nat) (w : State)
           (tasks : list (option (Prog unit))) (i : nat) (p : Prog unit) : Prop :=
  one_link w ∧
  i < length tasks ∧
  (∀ j t, j ≠ i → tasks !! j = Some (Some t) →
          waits t (bool_decide (holder = Some j)) w) ∧
  respects p (bool_decide (holder = Some i)) w released ∧
  match holder with
  | Some j => isInitializing w = true ∧ (j = i ∨ ∃ t, tasks !! j = Some (Some t))
  | None => isInitializing w = false
  end.



(* ===================================================================== *)
(** ** The request handler *)
(* ===================================================================== *)

(** [v.key] and [v[0]] on a value that was built as an object or an
    array. *)
Definition prop (key : string) (v : JsValue) : JsValue :=
  match v with
  | JObj fields => field key fields
  | _ => JUndefined
  end.

Definition first_item (v : JsValue) : JsValue :=
  match v with
  | JArr (x :: _) => x
  | _ => JUndefined
  end.

Module Server.

(** What the handler reads of a request: [url.parse(req.url, true).pathname],
    [req.method], and, for the cookie route, the body as [JSON.parse] reads
    it once the request has ended. *)
Record Request : Type := {
  pathname : string;
  method : string;
  parsed : Parsed
}.

(** What goes out: the headers set with [res.setHeader] and
    [res.writeHead], the status, and the value given to [JSON.stringify]
    for [res.end] (none for [res.end()]). *)
Record Reply : Type := {
  headers : list (string * string);
  statusCode : nat;
  sent : option JsValue
}.

(** The three [res.setHeader] calls every request starts with. *)
Definition cors : list (string * string) :=
  [("Access-Control-Allow-Origin", "*");
   ("Access-Control-Allow-Methods", "GET, POST, OPTIONS");
   ("Access-Control-Allow-Headers", "Content-Type")].

(** [res.writeHead(status, { 'Content-Type': 'application/json' });
    res.end(JSON.stringify(body))] *)
Definition json (r : Response) : Reply :=
  {| headers := cors ++ [("Content-Type", "application/json")];
     statusCode := status r;
     sent := Some (body r) |}.

(** [res.writeHead(200); res.end()] *)
Definition preflight : Reply :=
  {| headers := cors; statusCode := 200; sent := None |}.

(** The answer of [GET /ping]; [now] is [new Date().toISOString()]. *)
Definition pong (now : string) (w : State) : Response :=
  {| status := 200;
     body := JObj [("status", JStr "ok");
                   ("timestamp", JStr now);
                   ("message", JStr "HTTP Wrapper Server is running");
                   ("mcpServerUrl", JStr MCP_SERVER_URL);
                   ("mcpClientReady", JBool (has_client w && isConnected w));
                   ("connectionStatus",
                    JObj [("isConnected", JBool (isConnected w));
                          ("isInitializing", JBool (isInitializing w));
                          ("reconnectAttempts", JNum (Z.of_nat (reconnectAttempts w)));
                          ("maxReconnectAttempts",
                           JNum (Z.of_nat MAX_RECONNECT_ATTEMPTS))]);
                   ("note", JStr "Connects directly to MCP server using MCP client")] |}.

(** The answer of [GET /tools]. *)
Definition tools (w : State) : Response :=
  {| status := 200;
     body :=
       JObj [("tools",
              JArr [JObj [("name", JStr "get-cookie");
                          ("endpoint", JStr "/tools/get-cookie");
                          ("method", JStr "POST");
                          ("description", JStr "Get cookies from a specified website");
                          ("parameters",
                           JObj [("url",
                                  JStr "string - URL of the website to get cookies from")]);
                          ("note",
                           JStr ("Connects directly to MCP server using MCP client at "
                                 +:+ MCP_SERVER_URL));
                          ("status",
                           JStr (if has_client w && isConnected w
                                 then "ready" else "initializing"));
                          ("connectionInfo",
                           JObj [("isConnected", JBool (isConnected w));
                                 ("isInitializing", JBool (isInitializing w));
                                 ("reconnectAttempts",
                                  JNum (Z.of_nat (reconnectAttempts w)))])]])] |}.

Definition not_found : Response :=
  {| status := 404; body := JObj [("error", JStr "Not Found")] |}.

(** The callback of [http.createServer] from the CORS headers on, with the
    cookie route's [req.on('end', ...)] callback in its place. *)
Definition handler (fuel : nat) (now : string) (req : Request) : Prog Reply :=
  if String.eqb (method req) "OPTIONS" then Ret preflight
  else if String.eqb (pathname req) "/ping" && String.eqb (method req) "GET"
  then Get (fun w => Ret (json (pong now w)))
  else if String.eqb (pathname req) "/tools/get-cookie" && String.eqb (method req) "POST"
  then r ← get_cookie fuel (parsed req); Ret (json r)
  else if String.eqb (pathname req) "/tools" && String.eqb (method req) "GET"
  then Get (fun w => Ret (json (tools w)))
  else Ret (json not_found).

(** The callback from its first line: [parsed_url] is what
    [url.parse(req.url, true)] gives, its [pathname] ([None] where that is
    [null], which equals no route) or the [URIError] it throws (for a target
    whose user-info part cannot be decoded).  The call stands before every
    [try], so that the callback throws and nothing is sent. *)
Definition listener (fuel : nat) (now : string) (parsed_url : Err + option string)
           (method : string) (parsed : Parsed) : Prog Reply :=
  match parsed_url with
  | inl e => Throw e
  | inr pathname =>
      handler fuel now {| pathname := default "" pathname;
                          method := method; parsed := parsed |}
  end.

End Server.

(* ===================================================================== *)
(** ** What holds however the callbacks interleave *)
(* ===================================================================== *)

(** [always post p w]: the code [p], started in [w], ends only with an
    outcome and in a state that [post] accepts, whatever the promises settle
    to and whatever state the other callbacks have left when it is
    resumed. *)
Fixpoint always {R : Type} (post : Outcome R -> State -> Prop)
         (p : Prog R) (w : State) : Prop :=
  match p with
  | Ret r => post (Returned r) w
  | Throw e => post (Thrown e) w
  | OutOfFuel => True
  | Get k => always post (k w) w
  | Put f k => always post k (f w)
  | Await c k => ∀ a w', always post (k a) w'
  end.

(** The error is one that [sendToMcpServer] made from an error of the
    client. *)
Definition from_client (e : Err) : Prop := ∃ e0, e = client_error e0.

(** The answers an initialize-attempt takes: one for [close()] if there is
    a stale client, then [a] for [connect]. *)
Definition attempt_answers (w : State) (closing a : Answer) : list Answer :=
  match mcpClient w with
  | Some _ => [closing; a]
  | None => [a]
  end.

(** The statuses the wrapper answers with. *)
Definition statuses : list nat := [200; 400; 404; 500; 503].

(** What every reply of the wrapper is like: it carries the three CORS
    headers, its status is one of [statuses], and the [details] of a 500 are
    the message of an error that [sendToMcpServer] made from an error of the
    client. *)
Definition well_formed (reply : Server.Reply) : Prop :=
  (∀ h, h ∈ Server.cors → h ∈ Server.headers reply) ∧
  Server.statusCode reply ∈ statuses ∧
  (Server.statusCode reply = 500 →
   ∃ e, from_client e ∧
        Server.sent reply
          = Some (JObj [("error", JStr "Failed to communicate with MCP server");
                        ("details", JStr (message e));
                        ("suggestion",
                         JStr ("Make sure the MCP server is running at "
                               +:+ MCP_SERVER_URL))])).

(** *** More sample data *)

Definition ping_request : Server.Request :=
  {| Server.pathname := "/ping"; Server.method := "GET";
     Server.parsed := SyntaxError {| message := "Unexpected end of JSON input" |} |}.

(** Two forwarded calls are in flight when the link breaks.  The first one's
    reconnection fails, which schedules a retry; the second call then faults
    too and starts an attempt of its own, which is waiting for [close()]
    when the retry's timer is due. *)
Definition retry_meets_attempt : list Event :=
  [Startup; Settle 0 done; Settle 0 done;
   PostGetCookie 2 (Value example_body); PostGetCookie 2 (Value example_body);
   Settle 1 (Rejected connection_closed); Settle 1 done; Settle 1 (Rejected refused);
   Settle 2 (Rejected connection_closed)].


(** The link is open when a signal arrives, and the handler's [close()]
    settles. *)
Definition closed_by_signal : list Event :=
  [Startup; Settle 0 done; Settle 0 done; Signal; Settle 1 done].

(* ===================================================================== *)
(** ** Connected means monitored *)
(* ===================================================================== *)

(** The client a promise comes from. *)
Definition client_of (c : ExtCall) : option Handle :=
  match c with
  | Close h | Connect h _ | CallTool h _ _ _ | SendRequest h _ => Some h
  | Tick => None
  end.

(** A request to the server, as opposed to opening or closing the link. *)
Definition is_request (c : ExtCall) : bool :=
  match c with
  | CallTool _ _ _ _ | SendRequest _ _ => true
  | _ => false
  end.

(** The call is made on the client [mcpClient] holds, and a request only
    while [isConnected] is set. *)
Definition on_target (c : ExtCall) (w : State) : Prop :=
  match client_of c with
  | Some h => mcpClient w = Some h ∧ (is_request c = true → isConnected w = true)
  | None => True
  end.

(** While [isConnected] is set, [mcpClient] holds a client and a health
    timer is running. *)
Definition monitored (w : State) : Prop :=
  isConnected w = true → has_client w = true ∧ intervals w ≠ [].

(** [watches p holding w post]: the code [p], started in [w] by a function
    that holds the guard or not, keeps [monitored] at every point where
    another callback can run, up to its end, where [post] holds.

    - Without the guard it writes none of [link_fields], never clears a flag
      it did not set, and never sets [isConnected].
    - Whenever it suspends, [monitored] holds, and the promise it awaits
      comes from the client [mcpClient] holds; the holder of the guard
      suspends only with [isConnected] cleared.
    - It may count on being resumed in a state where [monitored] holds and,
      while it holds the guard, where the flag is set, [mcpClient] is as it
      left it and [isConnected] is still cleared. *)
Fixpoint watches {R : Type} (p : Prog R) (holding : bool) (w : State)
         (post : Outcome R -> bool -> State -> Prop) : Prop :=
  match p with
  | Ret r => post (Returned r) holding w
  | Throw e => post (Thrown e) holding w
  | OutOfFuel => holding = false ∧ monitored w
  | Get k => watches (k w) holding w post
  | Put f k =>
      (holding = false →
       link_fields (f w) = link_fields w ∧
       (isInitializing w = true → isInitializing (f w) = true) ∧
       (isConnected (f w) = true → isConnected w = true)) ∧
      watches k (holds_after holding w (f w)) (f w) post
  | Await c k =>
      monitored w ∧
      on_target c w ∧
      (holding = true → isConnected w = false) ∧
      ∀ a w',
        monitored w' →
        (holding = true →
         mcpClient w' = mcpClient w ∧ isInitializing w' = true ∧
         isConnected w' = false) →
        watches (k a) holding (settled c w') post
  end.

(** The end of a callback: the guard is released and [monitored] holds. *)
Definition unwatched {R : Type} (o : Outcome R) (holding : bool) (w : State) : Prop :=
  holding = false ∧ monitored w.

(** [initializeMcpClient] returns, released, and never throws. *)
Definition returned_unwatched {R : Type} (o : Outcome R) (holding : bool) (w : State)
  : Prop :=
  holding = false ∧ monitored w ∧ ∃ r, o = Returned r.

(** A suspended callback that keeps to [watches] once it is resumed. *)
Definition resumable (t : Prog unit) (holding : bool) (w : State) : Prop :=
  match t with
  | Await c k =>
      (holding = true → isConnected w = false) ∧
      ∀ a w',
        monitored w' →
        (holding = true →
         mcpClient w' = mcpClient w ∧ isInitializing w' = true ∧
         isConnected w' = false) →
        watches (k a) holding (settled c w') unwatched
  | _ => False
  end.

(** The invariant of the event loop: [monitored] holds between the turns;
    every suspended callback keeps to [watches]; the flag is set exactly when
    one of them holds the guard. *)
Definition monitor_invariant (s : System) : Prop :=
  monitored (world s) ∧
  ∃ holder : option nat,
    (∀ i t, pool s !! i = Some (Some t) →
            resumable t (bool_decide (holder = Some i)) (world s)) ∧
    match holder with
    | Some j => isInitializing (world s) = true ∧ ∃ t, pool s !! j = Some (Some t)
    | None => isInitializing (world s) = false
    end.

(** What [turn_monitored] asks of the code an event makes run. *)
Definition watch_ready (holder : option nat) (w : State)
           (tasks : list (option (Prog unit))) (i : nat) (p : Prog unit) : Prop :=
  i < length tasks ∧
  (∀ j t, j ≠ i → tasks !! j = Some (Some t) →
          resumable t (bool_decide (holder = Some j)) w) ∧
  watches p (bool_decide (holder = Some i)) w unwatched ∧
  match holder with
  | Some j => isInitializing w = true ∧ (j = i ∨ ∃ t, tasks !! j = Some (Some t))
  | None => isInitializing w = false
  end.

(** The promise the callback that an event makes run is suspended on at the
    end of its turn, if it is. *)
Definition issued (ev : Event) (s : System) : option ExtCall :=
  match dispatch ev s with
  | Some (w, _, _, p) =>
      match (turn p w).2 with
      | Await c _ => Some c
      | _ => None
      end
  | None => None
  end.

(* ===================================================================== *)
(** ** The wrapper without reconnection ([http-wrapper.js]) *)
(* ===================================================================== *)

(** The first version of the wrapper: one variable, [mcpClient]; no guard,
    no flag for the connection, no health timer, no retry. *)
Module Simple.

Definition initializeMcpClient : Prog bool :=
  try_catch
    (Put new_Client (Ret tt);;
     with_client "connect" (fun c => await (Connect c MCP_SERVER_URL));;
     Ret true)
    (fun error => Ret false).

Definition not_initialized : Err :=
  {| message := "MCP client not initialized" |}.

Definition sendToMcpServer (msg : Message) : Prog JsValue :=
  Get (fun w =>
    if negb (has_client w) then Throw not_initialized
    else
      try_catch
        (if String.eqb (method msg) "tools/call"
         then with_client "callTool" (fun c =>
                await (CallTool c (field "name" (params msg))
                                  (field "arguments" (params msg)) 30000))
         else with_client "sendRequest" (fun c => await (SendRequest c msg)))
        (fun error => Throw (client_error error))).

Definition client_not_ready : Response :=
  {| status := 503;
     body := JObj [("error", JStr "MCP client not ready");
                   ("message", JStr "Please wait for MCP client initialization")] |}.

(** The [req.on('end', ...)] callback of [POST /tools/get-cookie]; the
    first [template] is the argument of its [console.log]. *)
Definition get_cookie (parsed : Parsed) : Prog Response :=
  try_catch
    (targetUrl ← match parsed with
                 | SyntaxError e => Throw e
                 | Value v => match destructure_url v with
                              | inl e => Throw e
                              | inr u => Ret u
                              end
                 end;
     if negb (truthy targetUrl) then Ret url_required
     else
       template targetUrl;;
       Get (fun w =>
         if negb (has_client w) then Ret client_not_ready
         else
           try_catch
             (response ← await_async (sendToMcpServer (get_cookie_message targetUrl));
              text ← template targetUrl;
              Ret (cookies_retrieved text targetUrl response))
             (fun mcpError => Ret (communication_failed mcpError))))
    (fun parseError => Ret invalid_json).

(** The answer of [GET /ping]. *)
Definition pong (now : string) (w : State) : Response :=
  {| status := 200;
     body := JObj [("status", JStr "ok");
                   ("timestamp", JStr now);
                   ("message", JStr "HTTP Wrapper Server is running");
                   ("mcpServerUrl", JStr MCP_SERVER_URL);
                   ("mcpClientReady", JBool (has_client w));
                   ("note", JStr "Connects directly to MCP server using MCP client")] |}.

End Simple.

(* ===================================================================== *)
(** ** A call run alone: how [run] goes through the combinators *)
(* ===================================================================== *)

Lemma run_await_async {A : Type} (p : Prog A) answers w :
  run (await_async p) answers w = run p answers w.
Proof.
  revert answers w.
  induction p as [r|e|k IH|f k IH|c k IH|]; intros answers w; simpl; auto.
  destruct c; destruct answers as [|a rest]; auto; rewrite IH; reflexivity.
Qed.

(** A promise other than [Tick] takes the next answer. *)
Lemma run_Await {R : Type} c (k : Answer -> Prog R) answers w :
  c ≠ Tick →
  run (Await c k) answers w =
    match answers with
    | a :: rest =>
        match run (k a) rest (settled c w) with
        | Some (w', o, calls) => Some (w', o, c :: calls)
        | None => None
        end
    | [] => None
    end.
Proof. destruct c; intros H; try reflexivity. contradiction. Qed.

Lemma Tick_or_not (c : ExtCall) : c = Tick ∨ c ≠ Tick.
Proof. destruct c; auto. Qed.

Lemma run_bind_returned {A B : Type} (p : Prog A) (f : A -> Prog B) :
  ∀ a1 a2 w w1 r c1,
    run p a1 w = Some (w1, Returned r, c1) →
    run (bind p f) (a1 ++ a2) w =
      match run (f r) a2 w1 with
      | Some (w2, o, c2) => Some (w2, o, c1 ++ c2)
      | None => None
      end.
Proof.
  induction p as [r0|e|k IH|g k IH|c k IH|]; intros a1 a2 w w1 r c1 Hp.
  - simpl in Hp |- *. destruct a1; [|discriminate]. injection Hp as <- <- <-. simpl.
    destruct (run (f r0) a2 w) as [[[w2 o] c2]|]; reflexivity.
  - simpl in Hp. destruct a1; discriminate.
  - simpl in Hp |- *. eapply IH; eauto.
  - simpl in Hp |- *. eapply IH; eauto.
  - destruct (Tick_or_not c) as [->|Hc].
    + simpl in Hp |- *. eapply IH; eauto.
    + change (bind (Await c k) f) with (Await c (fun a => bind (k a) f)).
      rewrite run_Await in Hp by done. rewrite run_Await by done.
      destruct a1 as [|a rest]; [discriminate|]. simpl.
      destruct (run (k a) rest _) as [[[w' o'] calls]|] eqn:Hk; [|discriminate].
      injection Hp as Hw Ho Hcalls; subst.
      rewrite (IH a rest a2 _ _ _ _ Hk).
      destruct (run (f r) a2 _) as [[[w2 o2] c2]|]; reflexivity.
  - discriminate.
Qed.

Lemma run_bind_thrown {A B : Type} (p : Prog A) (f : A -> Prog B) :
  ∀ a1 w w1 e c1,
    run p a1 w = Some (w1, Thrown e, c1) →
    run (bind p f) a1 w = Some (w1, Thrown e, c1).
Proof.
  induction p as [r0|e0|k IH|g k IH|c k IH|]; intros a1 w w1 e c1 Hp.
  - simpl in Hp. destruct a1; discriminate.
  - simpl in Hp |- *. destruct a1; [|discriminate].
    injection Hp as Hw He Hcalls; subst. reflexivity.
  - simpl in Hp |- *. eapply IH; eauto.
  - simpl in Hp |- *. eapply IH; eauto.
  - destruct (Tick_or_not c) as [->|Hc].
    + simpl in Hp |- *. eapply IH; eauto.
    + change (bind (Await c k) f) with (Await c (fun a => bind (k a) f)).
      rewrite run_Await in Hp by done. rewrite run_Await by done.
      destruct a1 as [|a rest]; [discriminate|].
      destruct (run (k a) rest _) as [[[w' o'] calls]|] eqn:Hk; [|discriminate].
      injection Hp as Hw Ho Hcalls; subst.
      rewrite (IH a rest _ _ _ _ Hk). reflexivity.
  - discriminate.
Qed.

Lemma run_try_catch_returned {A : Type} (p : Prog A) (h : Err -> Prog A) :
  ∀ a1 w w1 r c1,
    run p a1 w = Some (w1, Returned r, c1) →
    run (try_catch p h) a1 w = Some (w1, Returned r, c1).
Proof.
  induction p as [r0|e0|k IH|g k IH|c k IH|]; intros a1 w w1 r c1 Hp.
  - exact Hp.
  - simpl in Hp. destruct a1; discriminate.
  - simpl in Hp |- *. eapply IH; eauto.
  - simpl in Hp |- *. eapply IH; eauto.
  - destruct (Tick_or_not c) as [->|Hc].
    + simpl in Hp |- *. eapply IH; eauto.
    + change (try_catch (Await c k) h) with (Await c (fun a => try_catch (k a) h)).
      rewrite run_Await in Hp by done. rewrite run_Await by done.
      destruct a1 as [|a rest]; [discriminate|].
      destruct (run (k a) rest _) as [[[w' o'] calls]|] eqn:Hk; [|discriminate].
      injection Hp as Hw Ho Hcalls; subst.
      rewrite (IH a rest _ _ _ _ Hk). reflexivity.
  - discriminate.
Qed.

Lemma run_try_catch_thrown {A : Type} (p : Prog A) (h : Err -> Prog A) :
  ∀ a1 a2 w w1 e c1,
    run p a1 w = Some (w1, Thrown e, c1) →
    run (try_catch p h) (a1 ++ a2) w =
      match run (h e) a2 w1 with
      | Some (w2, o, c2) => Some (w2, o, c1 ++ c2)
      | None => None
      end.
Proof.
  induction p as [r0|e0|k IH|g k IH|c k IH|]; intros a1 a2 w w1 e c1 Hp.
  - simpl in Hp. destruct a1; discriminate.
  - simpl in Hp |- *. destruct a1; [|discriminate]. injection Hp as <- <- <-. simpl.
    destruct (run (h e0) a2 w) as [[[w2 o] c2]|]; reflexivity.
  - simpl in Hp |- *. eapply IH; eauto.
  - simpl in Hp |- *. eapply IH; eauto.
  - destruct (Tick_or_not c) as [->|Hc].
    + simpl in Hp |- *. eapply IH; eauto.
    + change (try_catch (Await c k) h) with (Await c (fun a => try_catch (k a) h)).
      rewrite run_Await in Hp by done. rewrite run_Await by done.
      destruct a1 as [|a rest]; [discriminate|]. simpl.
      destruct (run (k a) rest _) as [[[w' o'] calls]|] eqn:Hk; [|discriminate].
      injection Hp as Hw Ho Hcalls; subst.
      rewrite (IH a rest a2 _ _ _ _ Hk).
      destruct (run (h e) a2 _) as [[[w2 o2] c2]|]; reflexivity.
  - discriminate.
Qed.

#[local] Opaque truthy destructure_url to_text includes.

(** [simpl] on the left of an equation, the step checked by evaluation. *)
Ltac simpl_lhs :=
  match goal with
  | |- ?l = _ =>
      let l' := eval simpl in l in
      transitivity l'; [vm_compute; reflexivity | ]
  end.

(* ===================================================================== *)
(** ** [initializeMcpClient], one call *)
(* ===================================================================== *)

(** C4.  A call to [initializeMcpClient] made while [isInitializing] is set
    returns [false] in the same turn: it assigns nothing (the state,
    pending timers included, is the one it started in), awaits nothing and
    calls nothing on the client. *)
Theorem initialize_while_initializing (w : State) :
  isInitializing w = true →
  turn initializeMcpClient w = (w, Ret false) ∧
  passes initializeMcpClient w = [] ∧
  run initializeMcpClient [] w = Some (w, Returned false, []).
Proof. intros H. simpl. rewrite H. repeat split; reflexivity. Qed.

Lemma initialize_while_initializing_witness :
  isInitializing (set_isInitializing true connected) = true ∧
  turn initializeMcpClient (set_isInitializing true connected)
    = (set_isInitializing true connected, Ret false) ∧
  passes initializeMcpClient (set_isInitializing true connected) = [] ∧
  run initializeMcpClient [] (set_isInitializing true connected)
    = Some (set_isInitializing true connected, Returned false, []).
Proof.
  split; [reflexivity|].
  apply (initialize_while_initializing (set_isInitializing true connected)).
  reflexivity.
Defined.

(** C6.  An initialize-attempt whose [connect] resolves returns [true] and
    leaves the wrapper connected to the new client, with the reconnect
    counter at 0, a new health timer running and the guard released. *)
Theorem initialize_success (w : State) (closing : Answer) (v : JsValue) :
  isInitializing w = false →
  isConnected w && has_client w = false →
  ∃ w' calls,
    run initializeMcpClient (open_answers w closing v) w
      = Some (w', Returned true, calls) ∧
    last calls = Some (Connect (clients w) MCP_SERVER_URL) ∧
    isConnected w' = true ∧
    reconnectAttempts w' = 0 ∧
    intervals w' = timers w :: intervals w ∧
    mcpClient w' = Some (clients w) ∧
    isInitializing w' = false.
Proof.
  intros Hi Hc. destruct w as [mc ii ic ra cl lv tm iv to]. simpl in *. subst ii.
  unfold open_answers, has_client in *. simpl in *.
  destruct mc as [c|]; simpl.
  - rewrite Hc. simpl. destruct closing; simpl; eexists _, _; repeat split; reflexivity.
  - rewrite Hc. simpl. eexists _, _; repeat split; reflexivity.
Qed.

Lemma initialize_success_witness :
  isInitializing initial = false ∧
  isConnected initial && has_client initial = false ∧
  ∃ w' calls,
    run initializeMcpClient (open_answers initial done JUndefined) initial
      = Some (w', Returned true, calls) ∧
    last calls = Some (Connect (clients initial) MCP_SERVER_URL) ∧
    isConnected w' = true ∧
    reconnectAttempts w' = 0 ∧
    intervals w' = timers initial :: intervals initial ∧
    mcpClient w' = Some (clients initial) ∧
    isInitializing w' = false.
Proof.
  split; [reflexivity|]. split; [reflexivity|].
  apply (initialize_success initial done JUndefined); reflexivity.
Defined.

Lemma startup_connects :
  run initializeMcpClient [done] initial
    = Some (connected, Returned true, [Connect 0 MCP_SERVER_URL]).
Proof. vm_compute. reflexivity. Qed.

Lemma settled_flag (c : ExtCall) (w : State) :
  isInitializing (settled c w) = isInitializing w.
Proof. destruct c; reflexivity. Qed.

Lemma run_guarded {R : Type} (p : Prog R) :
  ∀ answers w w' o calls,
    guarded p w →
    run p answers w = Some (w', o, calls) →
    isInitializing w' = false.
Proof.
  induction p as [r|e|k IH|f k IH|c k IH|]; intros answers w w' o calls Hg Hrun;
    simpl in Hg.
  - simpl in Hrun. destruct answers; [|discriminate]. congruence.
  - simpl in Hrun. destruct answers; [|discriminate]. congruence.
  - simpl in Hrun. eapply IH; eauto.
  - simpl in Hrun. eapply IH; eauto.
  - destruct Hg as [Hw Hk].
    destruct (Tick_or_not c) as [->|Hc].
    + simpl in Hrun. eapply IH; [|exact Hrun]. apply (Hk _ w Hw).
    + rewrite run_Await in Hrun by exact Hc.
      destruct answers as [|a rest]; [discriminate|].
      destruct (run (k a) rest (settled c w)) as [[[w1 o1] calls1]|] eqn:Hk1;
        [|discriminate].
      injection Hrun as <- <- <-.
      eapply IH; [|exact Hk1]. apply Hk, Hw.
  - contradiction.
Qed.

(** An initialize-attempt is suspended only with the guard set and ends
    only with it cleared. *)
Lemma attempt_guarded (w : State) :
  isInitializing w = false →
  isConnected w && has_client w = false →
  guarded initializeMcpClient w.
Proof.
  intros Hi Hc. simpl. rewrite Hi, Hc. simpl.
  destruct (mcpClient w) as [c|]; simpl.
  - split; [reflexivity|]. intros a w1 Hw1.
    destruct a as [v|e]; simpl; (split; [exact Hw1|]); intros a w2 Hw2;
      destruct a as [v'|e']; simpl;
      repeat match goal with
             | |- context [if ?b then _ else _] => destruct b
             end; reflexivity.
  - split; [reflexivity|]. intros a w2 Hw2.
    destruct a as [v'|e']; simpl;
      repeat match goal with
             | |- context [if ?b then _ else _] => destruct b
             end; reflexivity.
Qed.

(** The [finally] block runs on every way out of any body. *)
Lemma try_finally_clears {R : Type} (p : Prog R) :
  ∀ answers w w' o calls,
    run (try_finally p (set_isInitializing false)) answers w = Some (w', o, calls) →
    isInitializing w' = false.
Proof.
  induction p as [r|e|k IH|f k IH|c k IH|]; intros answers w w' o calls Hrun.
  - simpl in Hrun. destruct answers; [|discriminate]. injection Hrun as <- _ _.
    reflexivity.
  - simpl in Hrun. destruct answers; [|discriminate]. injection Hrun as <- _ _.
    reflexivity.
  - simpl in Hrun. eapply IH; eauto.
  - simpl in Hrun. eapply IH; eauto.
  - destruct (Tick_or_not c) as [->|Hc].
    + simpl in Hrun. eapply IH; eauto.
    + change (try_finally (Await c k) (set_isInitializing false))
        with (Await c (fun a => try_finally (k a) (set_isInitializing false))) in Hrun.
      rewrite run_Await in Hrun by exact Hc.
      destruct answers as [|a rest]; [discriminate|].
      destruct (run _ rest (settled c w)) as [[[w1 o1] calls1]|] eqn:Hk1;
        [|discriminate].
      injection Hrun as <- <- <-. eapply IH; eauto.
  - discriminate.
Qed.

(** When there is a stale client, an attempt first awaits its [close()];
    however that settles, the next turn drops the reference, then makes the
    new client and awaits its [connect]. *)
Lemma stale_client_closed_first (w : State) (c : Handle) :
  mcpClient w = Some c →
  isInitializing w = false →
  isConnected w = false →
  ∃ k, turn initializeMcpClient w = (set_isInitializing true w, Await (Close c) k) ∧
       ∀ closing w1,
         passes (k closing) (closed c w1)
           = [set_mcpClient None (closed c w1);
              new_Client (set_mcpClient None (closed c w1))] ∧
         ∃ k', turn (k closing) (closed c w1)
               = (new_Client (set_mcpClient None (closed c w1)),
                  Await (Connect (clients w1) MCP_SERVER_URL) k').
Proof.
  intros Hm Hi Hc. simpl. rewrite Hi, Hc. simpl. rewrite Hm. simpl.
  eexists. split; [reflexivity|].
  intros closing w1. destruct closing; simpl; split; try reflexivity;
    eexists; reflexivity.
Qed.

(** What the two assignments after [close()] do, variable by variable. *)
Lemma old_client_dropped (c : Handle) (w1 : State) :
  mcpClient (set_mcpClient None (closed c w1)) = None ∧
  live (set_mcpClient None (closed c w1)) = filter (fun h => h ≠ c) (live w1) ∧
  clients (set_mcpClient None (closed c w1)) = clients w1 ∧
  mcpClient (new_Client (set_mcpClient None (closed c w1))) = Some (clients w1) ∧
  live (new_Client (set_mcpClient None (closed c w1)))
    = clients w1 :: filter (fun h => h ≠ c) (live w1) ∧
  clients (new_Client (set_mcpClient None (closed c w1))) = S (clients w1).
Proof. repeat split. Qed.

Lemma close_errors_swallowed (w : State) (c : Handle) (closing a : Answer) :
  mcpClient w = Some c →
  isInitializing w = false →
  isConnected w = false →
  ∃ w' b,
    run initializeMcpClient [closing; a] w
      = Some (w', Returned b, [Close c; Connect (clients w) MCP_SERVER_URL]).
Proof.
  intros Hm Hi Hc. destruct w as [mc ii ic ra cl lv tm iv to]. simpl in *. subst.
  simpl. destruct closing, a; simpl;
    repeat match goal with
           | |- context [if ?b then _ else _] => destruct b
           end; eexists _, _; reflexivity.
Qed.

(* ===================================================================== *)
(** ** [sendToMcpServer], one call *)
(* ===================================================================== *)

Lemma not_ready_test (w : State) :
  has_client w && isConnected w = false →
  negb (has_client w) || negb (isConnected w) = true.
Proof. destruct (has_client w), (isConnected w); auto. Qed.

Lemma get_cookie_not_ready (fuel : nat) (parsed url : JsValue) (text : string)
      (w : State) :
  has_client w && isConnected w = false →
  destructure_url parsed = inr url →
  truthy url = true →
  to_text url = inr text →
  turn (get_cookie fuel (Value parsed)) w = (w, Ret (client_not_ready w)) ∧
  passes (get_cookie fuel (Value parsed)) w = [] ∧
  run (get_cookie fuel (Value parsed)) [] w
    = Some (w, Returned (client_not_ready w), []).
Proof.
  intros Hw Hd Ht Hp. apply not_ready_test in Hw.
  unfold get_cookie, template. simpl. rewrite Hd. simpl. rewrite Ht. simpl.
  rewrite Hp. simpl. rewrite Hw. auto.
Qed.



Lemma forward_succeeds (fuel : nat) (msg : Message) (w : State) (c : Handle) (r : JsValue) :
  mcpClient w = Some c →
  isConnected w = true →
  run (sendToMcpServer (S fuel) msg) [Resolved r] w
    = Some (w, Returned r, [link_call msg c]).
Proof.
  intros Hc Hi. unfold link_call, has_client. simpl.
  unfold has_client. rewrite Hc, Hi. simpl.
  destruct (String.eqb (method msg) "tools/call"); simpl; rewrite Hc; reflexivity.
Qed.

Lemma forward_other_failure (fuel : nat) (msg : Message) (w : State) (c : Handle) (e : Err) :
  mcpClient w = Some c →
  isConnected w = true →
  is_connection_error e = false →
  run (sendToMcpServer (S fuel) msg) [Rejected e] w
    = Some (w, Thrown (client_error e), [link_call msg c]).
Proof.
  intros Hc Hi He. unfold link_call. simpl.
  unfold has_client. rewrite Hc, Hi. simpl.
  destruct (String.eqb (method msg) "tools/call"); simpl; rewrite Hc; simpl;
    rewrite He; reflexivity.
Qed.

(** A connection fault, a reconnection that succeeds, and then the retry:
    the call ends as the retry does. *)
Lemma forward_retry (fuel : nat) (msg : Message) (w : State) (c : Handle)
      (e : Err) (closing : Answer) (v : JsValue) (rest : list Answer) :
  mcpClient w = Some c →
  isConnected w = true →
  isInitializing w = false →
  is_connection_error e = true →
  run (sendToMcpServer (S fuel) msg) (Rejected e :: closing :: Resolved v :: rest) w
    = match run (sendToMcpServer fuel msg) rest (reconnected c w) with
      | Some (w', o, calls) =>
          Some (w', o, link_call msg c :: Close c
                         :: Connect (clients w) MCP_SERVER_URL :: calls)
      | None => None
      end.
Proof.
  intros Hc Hi Hg He. unfold link_call. simpl_lhs.
  unfold has_client. rewrite Hc, Hi. simpl_lhs.
  destruct (String.eqb (method msg) "tools/call");
    simpl_lhs; rewrite Hc; simpl_lhs; rewrite He; simpl_lhs; rewrite Hg;
    simpl_lhs; rewrite Hc; simpl_lhs;
    destruct closing; simpl_lhs; rewrite run_await_async; unfold reconnected;
    destruct (run (sendToMcpServer fuel msg) rest _) as [[[w' o] calls]|];
    reflexivity.
Qed.

(** A connection fault and a reconnection that fails: no retry, the fault
    is thrown with the wrapper's prefix. *)
Lemma forward_reconnect_fails (fuel : nat) (msg : Message) (w : State) (c : Handle)
      (e e' : Err) (closing : Answer) :
  mcpClient w = Some c →
  isConnected w = true →
  isInitializing w = false →
  is_connection_error e = true →
  ∃ w',
    run (sendToMcpServer (S fuel) msg) [Rejected e; closing; Rejected e'] w
      = Some (w', Thrown (client_error e),
              [link_call msg c; Close c; Connect (clients w) MCP_SERVER_URL]) ∧
    isConnected w' = false.
Proof.
  intros Hc Hi Hg He. unfold link_call.
  destruct w as [mc ii ic ra cl lv tm iv to]. simpl in Hc, Hi, Hg. subst.
  simpl. destruct (String.eqb (method msg) "tools/call"); simpl; rewrite He; simpl;
    destruct closing; simpl; destruct (ra <? MAX_RECONNECT_ATTEMPTS); simpl;
    eexists; split; reflexivity.
Qed.

Lemma reconnected_ready (c : Handle) (w : State) :
  mcpClient (reconnected c w) = Some (clients w) ∧
  isConnected (reconnected c w) = true ∧
  isInitializing (reconnected c w) = false.
Proof. repeat split. Qed.

(** C1.  At this input the forwarder does not stop at one retry: the
    operation faults twice with a closed connection, both reconnections
    succeed, and the operation is sent a third time (its result is what
    the caller gets). *)
Theorem forward_retries_again (r : JsValue) :
  ∃ w,
    run (sendToMcpServer 3 (get_cookie_message example_url))
        [Rejected connection_closed; done; done;
         Rejected connection_closed; done; done;
         Resolved r] connected
    = Some (w, Returned r,
            [link_call (get_cookie_message example_url) 0;
             Close 0; Connect 1 MCP_SERVER_URL;
             link_call (get_cookie_message example_url) 1;
             Close 1; Connect 2 MCP_SERVER_URL;
             link_call (get_cookie_message example_url) 2]).
Proof. eexists. vm_compute. reflexivity. Qed.

(** The retry's outcome, a value or an error, is the call's outcome as it
    is. *)
Theorem retry_outcome_unchanged (fuel : nat) (msg : Message) (w w' : State) (c : Handle)
        (e : Err) (closing : Answer) (v : JsValue) (rest : list Answer)
        (o : Outcome JsValue) (calls : list ExtCall) :
  mcpClient w = Some c →
  isConnected w = true →
  isInitializing w = false →
  is_connection_error e = true →
  run (sendToMcpServer fuel msg) rest (reconnected c w) = Some (w', o, calls) →
  run (sendToMcpServer (S fuel) msg) (Rejected e :: closing :: Resolved v :: rest) w
    = Some (w', o, link_call msg c :: Close c
                     :: Connect (clients w) MCP_SERVER_URL :: calls).
Proof.
  intros Hc Hi Hg He Hrun.
  rewrite (forward_retry fuel msg w c e closing v rest Hc Hi Hg He), Hrun.
  reflexivity.
Qed.

Lemma retry_outcome_unchanged_witness :
  mcpClient connected = Some 0 ∧
  isConnected connected = true ∧
  isInitializing connected = false ∧
  is_connection_error connection_closed = true ∧
  run (sendToMcpServer 1 ping) [Rejected timed_out] (reconnected 0 connected)
    = Some (reconnected 0 connected, Thrown (client_error timed_out),
            [link_call ping 1]) ∧
  run (sendToMcpServer 2 ping) [Rejected connection_closed; done; done;
                                Rejected timed_out] connected
    = Some (reconnected 0 connected, Thrown (client_error timed_out),
            [link_call ping 0; Close 0; Connect (clients connected) MCP_SERVER_URL;
             link_call ping 1]).
Proof.
  split; [reflexivity|]. split; [reflexivity|]. split; [reflexivity|].
  split; [vm_compute; reflexivity|]. split; [vm_compute; reflexivity|].
  apply (retry_outcome_unchanged 1 ping connected (reconnected 0 connected) 0
           connection_closed done JUndefined [Rejected timed_out]);
    vm_compute; reflexivity.
Defined.

(** However many connection faults come in a row, the forwarder reconnects
    and sends the operation again after each. *)
Theorem retries_unbounded (msg : Message) (r : JsValue) (n : nat) :
  ∀ w c,
    mcpClient w = Some c →
    isConnected w = true →
    isInitializing w = false →
    ∃ w' calls,
      run (sendToMcpServer (S n) msg) (faults n ++ [Resolved r]) w
        = Some (w', Returned r, calls) ∧
      length calls = 3 * n + 1.
Proof.
  induction n as [|n IH]; intros w c Hc Hi Hg.
  - exists w, [link_call msg c]. split; [|reflexivity].
    apply forward_succeeds; auto.
  - destruct (reconnected_ready c w) as (Hc' & Hi' & Hg').
    destruct (IH _ _ Hc' Hi' Hg') as (w' & calls & Hrun & Hlen).
    exists w', (link_call msg c :: Close c :: Connect (clients w) MCP_SERVER_URL :: calls).
    split.
    + change (faults (S n) ++ [Resolved r])
        with (Rejected connection_closed :: done :: Resolved JUndefined
                :: (faults n ++ [Resolved r])).
      rewrite (forward_retry (S n) msg w c connection_closed done JUndefined _ Hc Hi Hg)
        by (vm_compute; reflexivity).
      rewrite Hrun. reflexivity.
    + simpl. rewrite Hlen. lia.
Qed.

Lemma retries_unbounded_witness :
  mcpClient connected = Some 0 ∧
  isConnected connected = true ∧
  isInitializing connected = false ∧
  ∃ w' calls,
    run (sendToMcpServer 3 ping) (faults 2 ++ [Resolved JNull]) connected
      = Some (w', Returned JNull, calls) ∧
    length calls = 3 * 2 + 1.
Proof.
  split; [reflexivity|]. split; [reflexivity|]. split; [reflexivity|].
  apply (retries_unbounded ping JNull 2 connected 0); reflexivity.
Defined.

(* ===================================================================== *)
(** ** The [POST /tools/get-cookie] route *)
(* ===================================================================== *)

(** C10.  When the parsed body has a [url] that is falsy (absent, [null],
    the empty string, [false], 0), the route answers 400 "URL parameter is
    required" in the same turn, with no assignment and no call on the
    client.  The body must be one a property can be read from: not
    [null]. *)
Theorem falsy_url_rejected (fuel : nat) (parsed url : JsValue) (w : State) :
  destructure_url parsed = inr url →
  truthy url = false →
  turn (get_cookie fuel (Value parsed)) w = (w, Ret url_required) ∧
  passes (get_cookie fuel (Value parsed)) w = [] ∧
  run (get_cookie fuel (Value parsed)) [] w = Some (w, Returned url_required, []).
Proof.
  intros Hd Ht. unfold get_cookie. simpl. rewrite Hd. simpl. rewrite Ht. auto.
Qed.

Lemma falsy_url_rejected_witness :
  destructure_url (JObj [("url", JStr "")]) = inr (JStr "") ∧
  truthy (JStr "") = false ∧
  turn (get_cookie 1 (Value (JObj [("url", JStr "")]))) connected
    = (connected, Ret url_required) ∧
  passes (get_cookie 1 (Value (JObj [("url", JStr "")]))) connected = [] ∧
  run (get_cookie 1 (Value (JObj [("url", JStr "")]))) [] connected
    = Some (connected, Returned url_required, []).
Proof.
  split; [vm_compute; reflexivity|]. split; [vm_compute; reflexivity|].
  apply (falsy_url_rejected 1 (JObj [("url", JStr "")]) (JStr "") connected);
    vm_compute; reflexivity.
Defined.

(** The body [null] is valid JSON and has no [url], and the answer is
    another one: reading [url] off [null] throws, and the [catch] around the
    route answers "Invalid JSON in request body". *)
Lemma null_body_invalid_json :
  run (get_cookie 1 (Value JNull)) [] connected
    = Some (connected, Returned invalid_json, []) ∧
  invalid_json ≠ url_required.
Proof. split; [vm_compute; reflexivity|discriminate]. Qed.

(** C8, as the code has it.  The answers of the route, in the order of its
    tests: 400 "Invalid JSON in request body" for a body that is not JSON;
    400 for a body with no truthy [url]; 400 "Invalid JSON in request body"
    again for a truthy [url] that cannot be converted to text, which the log
    line does before anything else, whatever the state of the link; then 503
    when there is no client or it is not connected; 200 with [success],
    [message], [response] (what [sendToMcpServer] returned, as it is) and
    [request] (the message sent) when the forwarder returns; 500 with
    [error], [details] (the message of the error thrown) and [suggestion]
    when it throws.  In the first four cases nothing is assigned and nothing
    is called on the client. *)
Theorem get_cookie_responses :
  (∀ fuel e w,
     run (get_cookie fuel (SyntaxError e)) [] w
       = Some (w, Returned {| status := 400;
                              body := JObj [("error", JStr "Invalid JSON in request body")] |},
               [])) ∧
  (∀ fuel parsed w,
     (∀ url, destructure_url parsed = inr url → truthy url = false) →
     ∃ error,
       run (get_cookie fuel (Value parsed)) [] w
         = Some (w, Returned {| status := 400;
                                body := JObj [("error", JStr error)] |}, []) ∧
       (error = "URL parameter is required" ∨ error = "Invalid JSON in request body")) ∧
  (∀ fuel parsed url e w,
     destructure_url parsed = inr url → truthy url = true →
     to_text url = inl e →
     run (get_cookie fuel (Value parsed)) [] w
       = Some (w, Returned {| status := 400;
                              body := JObj [("error", JStr "Invalid JSON in request body")] |},
               [])) ∧
  (∀ fuel parsed url text w,
     destructure_url parsed = inr url → truthy url = true →
     to_text url = inr text →
     has_client w && isConnected w = false →
     ∃ r, run (get_cookie fuel (Value parsed)) [] w = Some (w, Returned r, []) ∧
          status r = 503 ∧
          prop "error" (body r) = JStr "MCP client not ready") ∧
  (∀ fuel parsed url text w answers w' response calls,
     destructure_url parsed = inr url → truthy url = true →
     to_text url = inr text →
     has_client w && isConnected w = true →
     run (sendToMcpServer fuel
            {| jsonrpc := "2.0"; id := JNum 1; method := "tools/call";
               params := [("name", JStr "chrome_get_cookie");
                          ("arguments", JObj [("url", url)])] |}) answers w
       = Some (w', Returned response, calls) →
     run (get_cookie fuel (Value parsed)) answers w
       = Some (w',
               Returned
                 {| status := 200;
                    body :=
                      JObj [("success", JBool true);
                            ("message", JStr ("Cookies retrieved from " +:+ text));
                            ("response", response);
                            ("request",
                             JObj [("jsonrpc", JStr "2.0");
                                   ("id", JNum 1);
                                   ("method", JStr "tools/call");
                                   ("params",
                                    JObj [("name", JStr "chrome_get_cookie");
                                          ("arguments", JObj [("url", url)])])])] |},
               calls)) ∧
  (∀ fuel parsed url text w answers w' mcpError calls,
     destructure_url parsed = inr url → truthy url = true →
     to_text url = inr text →
     has_client w && isConnected w = true →
     run (sendToMcpServer fuel
            {| jsonrpc := "2.0"; id := JNum 1; method := "tools/call";
               params := [("name", JStr "chrome_get_cookie");
                          ("arguments", JObj [("url", url)])] |}) answers w
       = Some (w', Thrown mcpError, calls) →
     run (get_cookie fuel (Value parsed)) answers w
       = Some (w',
               Returned
                 {| status := 500;
                    body :=
                      JObj [("error", JStr "Failed to communicate with MCP server");
                            ("details", JStr (message mcpError));
                            ("suggestion",
                             JStr "Make sure the MCP server is running at http://127.0.0.1:12306/mcp")] |},
               calls)).
Proof.
  split; [reflexivity|]. split; [|split; [|split; [|split]]].
  - intros fuel parsed w H. unfold get_cookie. simpl.
    destruct (destructure_url parsed) as [e|url] eqn:Hd; simpl.
    + eexists; split; [reflexivity|auto].
    + rewrite (H url eq_refl). simpl. eexists; split; [reflexivity|auto].
  - intros fuel parsed url e w Hd Ht Hp.
    unfold get_cookie, template. simpl. rewrite Hd. simpl. rewrite Ht. simpl.
    rewrite Hp. reflexivity.
  - intros fuel parsed url text w Hd Ht Hp Hw.
    destruct (get_cookie_not_ready fuel parsed url text w Hw Hd Ht Hp) as (_ & _ & H).
    eexists; split; [exact H|]. split; reflexivity.
  - intros fuel parsed url text w answers w' response calls Hd Ht Hp Hw Hrun.
    unfold get_cookie, template, mbind, Prog_bind. simpl. rewrite Hd. simpl.
    rewrite Ht. simpl. rewrite Hp. simpl.
    apply andb_true_iff in Hw as [-> ->]. simpl.
    apply run_try_catch_returned. apply run_try_catch_returned.
    rewrite <- (app_nil_r answers).
    erewrite run_bind_returned by (rewrite run_await_async; exact Hrun).
    simpl. rewrite app_nil_r. reflexivity.
  - intros fuel parsed url text w answers w' mcpError calls Hd Ht Hp Hw Hrun.
    unfold get_cookie, template, mbind, Prog_bind. simpl. rewrite Hd. simpl.
    rewrite Ht. simpl. rewrite Hp. simpl.
    apply andb_true_iff in Hw as [-> ->]. simpl.
    apply run_try_catch_returned.
    rewrite <- (app_nil_r answers).
    erewrite run_try_catch_thrown
      by (apply run_bind_thrown; rewrite run_await_async; exact Hrun).
    simpl. rewrite app_nil_r. reflexivity.
Qed.

(** For instance: connected, the tool call resolving to ["a=1"] gives 200
    with that value under [response]; rejecting with a timeout it gives
    500. *)
Lemma get_cookie_responses_witness :
  run (get_cookie 1 (Value example_body)) [Resolved (JStr "a=1")] connected
    = Some (connected,
            Returned
              {| status := 200;
                 body :=
                   JObj [("success", JBool true);
                         ("message", JStr "Cookies retrieved from https://example.com");
                         ("response", JStr "a=1");
                         ("request",
                          JObj [("jsonrpc", JStr "2.0");
                                ("id", JNum 1);
                                ("method", JStr "tools/call");
                                ("params",
                                 JObj [("name", JStr "chrome_get_cookie");
                                       ("arguments",
                                        JObj [("url", JStr "https://example.com")])])])] |},
            [CallTool 0 (JStr "chrome_get_cookie")
                      (JObj [("url", JStr "https://example.com")]) 30000]) ∧
  run (get_cookie 1 (Value example_body)) [Rejected timed_out] connected
    = Some (connected,
            Returned
              {| status := 500;
                 body :=
                   JObj [("error", JStr "Failed to communicate with MCP server");
                         ("details", JStr "MCP client error: Request timed out");
                         ("suggestion",
                          JStr "Make sure the MCP server is running at http://127.0.0.1:12306/mcp")] |},
            [CallTool 0 (JStr "chrome_get_cookie")
                      (JObj [("url", JStr "https://example.com")]) 30000]).
Proof.
  destruct get_cookie_responses as (_ & _ & _ & _ & Hok & Hfail).
  split.
  - apply (Hok 1 example_body example_url "https://example.com" connected
               [Resolved (JStr "a=1")]);
      vm_compute; reflexivity.
  - apply (Hfail 1 example_body example_url "https://example.com" connected
                 [Rejected timed_out] connected (client_error timed_out));
      vm_compute; reflexivity.
Defined.

(** A [url] that is present and truthy, in a body that is valid JSON, and
    yet "Invalid JSON in request body": an object with an own property
    [toString] cannot be written into the log line.  The answer is 400 where
    the wrapper is not ready (not 503) and where it is connected (no call is
    made). *)
Lemma unprintable_url_invalid_json :
  destructure_url (JObj [("url", JObj [("toString", JNum 1)])])
    = inr (JObj [("toString", JNum 1)]) ∧
  truthy (JObj [("toString", JNum 1)]) = true ∧
  has_client initial && isConnected initial = false ∧
  run (get_cookie 1 (Value (JObj [("url", JObj [("toString", JNum 1)])]))) [] initial
    = Some (initial,
            Returned {| status := 400;
                        body := JObj [("error", JStr "Invalid JSON in request body")] |},
            []) ∧
  has_client connected && isConnected connected = true ∧
  run (get_cookie 1 (Value (JObj [("url", JObj [("toString", JNum 1)])]))) [] connected
    = Some (connected,
            Returned {| status := 400;
                        body := JObj [("error", JStr "Invalid JSON in request body")] |},
            []).
Proof. repeat split; vm_compute; reflexivity. Qed.

(* ===================================================================== *)
(** ** Runs of the event loop *)
(* ===================================================================== *)

Lemma failed_opens_state (closing : nat -> Answer) (e : nat -> Err) (n : nat) :
  1 ≤ n ≤ 6 →
  ∃ s, exec (failed_opens n closing e) boot = Some s ∧
       world s = after_failures n ∧ idle s.
Proof.
  intros Hn.
  destruct n as [|[|[|[|[|[|[|n]]]]]]]; try lia; clear Hn;
    unfold failed_opens, first_attempt_fails, retry_fails; simpl flat_map;
    simpl app;
    try destruct (closing 1); try destruct (closing 2); try destruct (closing 3);
    try destruct (closing 4); try destruct (closing 5);
    (eexists; split; [vm_compute; reflexivity|]; split;
     [reflexivity | repeat constructor]).
Qed.

(** C2, as the code has it.  From the initial state, when every open
    attempt fails: after each of the first five failures in a row one retry
    is pending and the counter is the number of retries fired so far; after
    the sixth (the startup attempt and [MAX_RECONNECT_ATTEMPTS] retries) the
    counter is 5 and nothing is pending: no timer fires and no promise is
    awaited.  The wrapper is disconnected throughout. *)
Theorem reconnection_gives_up (closing : nat -> Answer) (e : nat -> Err) :
  (∀ n, 1 ≤ n ≤ 5 →
     ∃ s, exec (failed_opens n closing e) boot = Some s ∧
          isConnected (world s) = false ∧
          reconnectAttempts (world s) = n - 1 ∧
          timeouts (world s) = [RECONNECT_DELAY]) ∧
  (∃ s, exec (failed_opens 6 closing e) boot = Some s ∧
        isConnected (world s) = false ∧
        reconnectAttempts (world s) = MAX_RECONNECT_ATTEMPTS ∧
        timeouts (world s) = [] ∧
        step ReconnectTimer s = None ∧
        (∀ t, step (HealthTimer t) s = None) ∧
        (∀ i a, step (Settle i a) s = None)).
Proof.
  split.
  - intros n Hn.
    destruct (failed_opens_state closing e n) as (s & Hs & Hw & _); [lia|].
    exists s. rewrite Hw. split; [exact Hs|].
    destruct n as [|[|[|[|[|[|n]]]]]]; try lia; repeat split; reflexivity.
  - destruct (failed_opens_state closing e 6) as (s & Hs & Hw & Hidle); [lia|].
    exists s. rewrite Hw. split; [exact Hs|]. repeat split.
    + unfold step, dispatch. rewrite Hw. reflexivity.
    + intros t. unfold step, dispatch. rewrite Hw. reflexivity.
    + intros i a. unfold step, dispatch.
      destruct (pool s !! i) as [[p|]|] eqn:Hp; try reflexivity.
      apply list_elem_of_lookup_2 in Hp.
      unfold idle in Hidle. rewrite Forall_forall in Hidle.
      apply Hidle in Hp. discriminate.
Qed.

(** After five failed open attempts in a row a retry is pending, and the
    counter is 4. *)
Lemma retry_pending_after_five_failures :
  ∃ s, exec (failed_opens 5 (fun _ => done) (fun _ => refused)) boot = Some s ∧
       timeouts (world s) = [RECONNECT_DELAY] ∧
       reconnectAttempts (world s) = 4 ∧
       (world <$> step ReconnectTimer s) ≠ None.
Proof.
  eexists. split; [vm_compute; reflexivity|]. repeat split. discriminate.
Qed.

(** C3.  Two health timers run at once: the link opens (timer 0); a
    forwarded call faults with a closed connection; the forwarder's
    reconnection succeeds (timer 1) before timer 0 has ticked, and nothing
    has cleared timer 0. *)
Theorem two_health_timers :
  world <$> exec forwarder_reconnects boot
  = Some {| mcpClient := Some 1; isInitializing := false; isConnected := true;
            reconnectAttempts := 0; clients := 2; live := [1]; timers := 2;
            intervals := [1; 0]; timeouts := [] |}.
Proof. vm_compute. reflexivity. Qed.

(** When the health check of timer [t] fails, the callback marks the
    wrapper disconnected, clears its timer, and only then calls
    [initializeMcpClient]. *)
Lemma healthCheck_failure_order (t : TimerId) (c : Handle) (e : Err) (w w1 : State) :
  mcpClient w = Some c →
  isConnected w = true →
  ∃ k, turn (healthCheck t) w = (w, Await (SendRequest c ping) k) ∧
       take 2 (passes (k (Rejected e)) w1)
         = [set_isConnected false w1; clearInterval t (set_isConnected false w1)].
Proof.
  intros Hm Hc. unfold healthCheck, forget, has_client. simpl.
  unfold has_client. rewrite Hm, Hc. simpl. rewrite Hm.
  eexists. split; [reflexivity|].
  simpl. destruct (isInitializing w1); reflexivity.
Qed.

(** With two retry chains in flight the counter passes
    [MAX_RECONNECT_ATTEMPTS]. *)
Theorem counter_passes_max :
  reconnectAttempts <$> (world <$>
    exec (two_chains ++ flat_map (fun k => retry_fails k done refused) (seq 3 6)) boot)
  = Some 6.
Proof. vm_compute. reflexivity. Qed.

(* ===================================================================== *)
(** ** The guard protocol is kept *)
(* ===================================================================== *)

Lemma respects_mono {R : Type} (p : Prog R) :
  ∀ holding w (post post' : Outcome R -> bool -> State -> Prop),
    (∀ o h w', post o h w' → post' o h w') →
    respects p holding w post → respects p holding w post'.
Proof.
  induction p as [r|e|k IH|f k IH|c k IH|]; intros holding w post post' Hpost; simpl.
  - apply Hpost.
  - apply Hpost.
  - apply IH, Hpost.
  - intros (H0 & H1 & H2). split; [exact H0|]. split; [exact H1|]. eapply IH; eauto.
  - intros (H1 & H3). split; [exact H1|].
    intros a w' Hw' Hh. eapply IH; eauto.
  - auto.
Qed.

Lemma respects_bind {A B : Type} (p : Prog A) (f : A -> Prog B) :
  ∀ holding w post,
    respects p holding w
      (fun o h w' => match o with
                     | Returned r => respects (f r) h w' post
                     | Thrown e => post (Thrown e) h w'
                     end) →
    respects (bind p f) holding w post.
Proof.
  induction p as [r|e|k IH|g k IH|c k IH|]; intros holding w post; simpl; auto.
  - intros (H0 & H1 & H2). repeat split; auto; apply H1; auto.
  - intros (H1 & H3). split; auto.
Qed.

Lemma respects_try_catch {A : Type} (p : Prog A) (hd : Err -> Prog A) :
  ∀ holding w post,
    respects p holding w
      (fun o h w' => match o with
                     | Returned r => post (Returned r) h w'
                     | Thrown e => respects (hd e) h w' post
                     end) →
    respects (try_catch p hd) holding w post.
Proof.
  induction p as [r|e|k IH|g k IH|c k IH|]; intros holding w post; simpl; auto.
  - intros (H0 & H1 & H2). repeat split; auto; apply H1; auto.
  - intros (H1 & H3). split; auto.
Qed.

Lemma respects_await_async {A : Type} (p : Prog A) :
  ∀ holding w (post : Outcome A -> bool -> State -> Prop),
    respects p holding w
      (fun o h w' => h = false ∧ one_link w' ∧ ∀ w'', one_link w'' → post o false w'') →
    respects (await_async p) holding w post.
Proof.
  induction p as [r|e|k IH|g k IH|c k IH|]; intros holding w post; simpl; auto.
  - intros (-> & H1 & H2). repeat split; auto.
  - intros (-> & H1 & H2). repeat split; auto.
  - intros (H0 & H1 & H2). repeat split; auto; apply H1; auto.
  - intros (H1 & H3). split; auto.
Qed.

Lemma respects_forget {A : Type} (p : Prog A) holding w :
  respects p holding w released → respects (forget p) holding w released.
Proof.
  intros H. unfold forget. apply respects_try_catch, respects_bind.
  revert H. apply respects_mono. intros [r|e] h w' Hr; exact Hr.
Qed.

Lemma closed_one_link (c : Handle) (w : State) :
  one_link w → mcpClient w = Some c → live (closed c w) = [].
Proof.
  intros [Hl|(h & Hl & Hm)] Hc; unfold closed; cbn [live]; rewrite Hl; [reflexivity|].
  rewrite Hm in Hc. injection Hc as ->.
  rewrite filter_cons_False by auto. reflexivity.
Qed.

Ltac protocol :=
  repeat first
    [ progress (simpl; unfold holds_after, released, returned_released, link_fields,
                  Prog_bind, mbind; simpl)
    | split
    | discriminate
    | match goal with H : true = false |- _ => discriminate H end
    | match goal with
      | H : true = true → _ |- _ => specialize (H eq_refl)
      | H : _ ∧ _ |- _ => destruct H
      | H : isInitializing ?w = _ |- context [isInitializing ?w] => rewrite H
      | a : Answer |- _ => destruct a
      end
    | reflexivity
    | assumption
    | solve [eauto]
    | progress intros
    | match goal with
      | H : ?b = true |- context [if ?b then _ else _] => rewrite H
      | H : ?b = false |- context [if ?b then _ else _] => rewrite H
      | |- context [if ?b then _ else _] => destruct b eqn:?
      end ].

Lemma one_link_frame (w w' : State) :
  one_link w → live w' = live w → mcpClient w' = mcpClient w → one_link w'.
Proof. unfold one_link. intros H -> ->. exact H. Qed.

Lemma one_link_same (w w' : State) :
  one_link w → link_fields w' = link_fields w → one_link w'.
Proof.
  unfold link_fields. intros H Hl. injection Hl as Hm Hlv _.
  eapply one_link_frame; eauto.
Qed.

Lemma one_link_length (w : State) : one_link w → length (live w) ≤ 1.
Proof. intros [->|(h & -> & _)]; simpl; lia. Qed.

(** An assignment to a variable outside the guard's protocol. *)
Lemma respects_Put_other {R : Type} (f : State -> State) (k : Prog R) w post :
  one_link w →
  link_fields (f w) = link_fields w →
  isInitializing (f w) = isInitializing w →
  respects k false (f w) post →
  respects (Put f k) false w post.
Proof.
  intros Hw Hl Hi Hk. simpl.
  split; [apply one_link_length; eapply one_link_same; eauto|].
  split; [intros _; split; [exact Hl|congruence]|].
  unfold holds_after. rewrite Hi.
  destruct (isInitializing w); exact Hk.
Qed.

(** The end of an attempt, from the settling of [connect] on. *)
Lemma attempt_ends_respects (a : Answer) (w2 : State) :
  one_link w2 →
  isInitializing w2 = true →
  respects
    (try_finally
       (try_catch
          (bind (match a with
                 | Resolved v => Ret v
                 | Rejected e => Throw e
                 end)
                (fun _ =>
                   Put (set_isConnected true)
                     (Put (set_reconnectAttempts 0)
                        (Get (fun w0 =>
                           bind (if negb (has_client w0) then Ret tt
                                 else Put setInterval (Ret tt))
                                (fun _ => Ret true))))))
          initialize_failed)
       (set_isInitializing false))
    true w2 returned_released.
Proof.
  intros Hw2 Hi2. pose proof (one_link_length w2 Hw2) as Hlen.
  assert (Hend : ∀ w', live w' = live w2 → mcpClient w' = mcpClient w2 →
                       returned_released (Returned true) false w'
                       ∧ returned_released (Returned false) false w').
  { intros w' Hl Hm.
    assert (one_link w') by (eapply one_link_frame; eauto).
    split; (split; [reflexivity|split; [assumption|eauto]]). }
  destruct a as [v|e]; simpl; unfold holds_after, has_client; simpl; rewrite ?Hi2; simpl.
  - destruct (mcpClient w2) eqn:Hm2; simpl; unfold holds_after; simpl; rewrite ?Hi2;
      simpl.
    all: repeat (split; [first [exact Hlen
                               | intros Hf; first [discriminate Hf | congruence]]|]).
    all: apply Hend; simpl; auto.
  - split; [exact Hlen|]. split; [intros; discriminate|].
    destruct (reconnectAttempts w2 <? MAX_RECONNECT_ATTEMPTS); simpl;
      unfold holds_after; simpl; rewrite ?Hi2; simpl.
    all: repeat (split; [first [exact Hlen
                               | intros Hf; first [discriminate Hf | congruence]]|]).
    all: apply Hend; reflexivity.
Qed.

Lemma initializeMcpClient_respects (w : State) :
  one_link w → respects initializeMcpClient false w returned_released.
Proof.
  intros Hw. pose proof (one_link_length w Hw) as Hlen. simpl.
  destruct (isInitializing w) eqn:Hi; [repeat split; eauto|].
  destruct (isConnected w && has_client w) eqn:Hc; [repeat split; eauto|].
  simpl. unfold holds_after. simpl. rewrite Hi. simpl.
  split; [exact Hlen|]. split; [auto|].
  destruct (mcpClient w) as [c|] eqn:Hm; simpl.
  - (* a stale client is closed first *)
    split; [eapply one_link_frame; eauto|].
    intros a w1 Hw1 Hsame. destruct Hsame as [Hm1 Hi1]; [reflexivity|].
    simpl in Hm1. rewrite Hm in Hm1.
    assert (Hlive : filter (fun h => h ≠ c) (live w1) = [])
      by (apply (closed_one_link c w1); congruence).
    assert (Hnew : one_link (new_Client (set_mcpClient None (closed c w1)))).
    { right. exists (clients w1). simpl. rewrite Hlive. auto. }
    destruct a as [v|e]; simpl; unfold holds_after; simpl; rewrite Hi1, Hlive; simpl.
    all: repeat (split; [first [lia | intros Hf; first [discriminate Hf | congruence]]|]).
    all: split; [exact Hnew|].
    all: intros a2 w2 Hw2 Hsame2; destruct Hsame2 as [_ Hi2]; [reflexivity|].
    all: apply (attempt_ends_respects a2 w2 Hw2 Hi2).
  - unfold holds_after. simpl.
    assert (Hnew : one_link (new_Client (set_isInitializing true w))).
    { right. exists (clients w). simpl.
      destruct Hw as [->|(h & _ & Hh)]; [auto|congruence]. }
    pose proof (one_link_length _ Hnew) as Hlen'. simpl in Hlen'.
    split; [exact Hlen'|]. split; [intros; discriminate|].
    split; [exact Hnew|].
    intros a2 w2 Hw2 Hsame2; destruct Hsame2 as [_ Hi2]; [reflexivity|].
    apply (attempt_ends_respects a2 w2 Hw2 Hi2).
Qed.


#[local] Opaque initializeMcpClient.

(** Awaiting our own [initializeMcpClient()] from code that does not hold
    the guard. *)
Lemma await_initialize_respects {R : Type} (w : State) (k : bool -> Prog R) post :
  one_link w →
  (∀ b w', one_link w' → respects (k b) false w' post) →
  respects (bind (await_async initializeMcpClient) k) false w post.
Proof.
  intros Hw Hk. apply respects_bind, respects_await_async.
  generalize (initializeMcpClient_respects w Hw). apply respects_mono.
  intros o h w' (-> & Hw' & b & ->). repeat split; auto.
Qed.

Lemma sendToMcpServer_respects (fuel : nat) (msg : Message) :
  ∀ w, one_link w → respects (sendToMcpServer fuel msg) false w released.
Proof.
  induction fuel as [|fuel IH]; intros w Hw; [split; auto|].
  simpl.
  destruct (negb (has_client w) || negb (isConnected w)); [split; auto|].
  assert (Hhandler : ∀ error w1, one_link w1 →
    respects
      (if is_connection_error error
       then Put (set_isConnected false) (Ret tt);;
            await_async initializeMcpClient;;
            Get (fun w => if isConnected w && has_client w
                          then await_async (sendToMcpServer fuel msg)
                          else Throw (client_error error))
       else Throw (client_error error)) false w1 released).
  { intros error w1 Hw1. destruct (is_connection_error error); [|split; auto].
    unfold mbind, Prog_bind. cbn [bind].
    apply respects_Put_other; [exact Hw1|reflexivity..|].
    apply await_initialize_respects; [eapply one_link_frame; eauto|].
    all: intros _ w2 Hw2; simpl.
    all: destruct (isConnected w2 && has_client w2); [|split; auto].
    all: apply respects_await_async.
    all: generalize (IH w2 Hw2); apply respects_mono.
    all: intros o h w3 [-> Hw3]; repeat split; auto. }
  destruct (String.eqb (method msg) "tools/call"); simpl.
  all: destruct (mcpClient w) as [c|]; simpl; [|split; auto].
  all: repeat split; auto.
  all: intros a w1 Hw1 _; destruct a as [v|e]; simpl; [split; auto|].
  all: apply Hhandler; exact Hw1.
Qed.

Lemma get_cookie_respects (fuel : nat) (parsed : Parsed) (w : State) :
  one_link w → respects (forget (get_cookie fuel parsed)) false w released.
Proof.
  intros Hw. apply respects_forget. unfold get_cookie, template.
  apply respects_try_catch. unfold mbind, Prog_bind.
  destruct parsed as [e|v]; simpl; [split; auto|].
  destruct (destructure_url v) as [e|url]; simpl; [split; auto|].
  destruct (negb (truthy url)); simpl; [split; auto|].
  destruct (to_text url) as [e|text]; simpl; [split; auto|].
  destruct (negb (has_client w) || negb (isConnected w)); [split; auto|].
  apply respects_try_catch, respects_bind, respects_await_async.
  generalize (sendToMcpServer_respects fuel (get_cookie_message url) w Hw).
  apply respects_mono. intros o h w' [-> Hw']. repeat split; auto.
  intros w'' Hw''. destruct o; simpl; split; auto.
Qed.

Lemma startup_callback_respects (w : State) :
  one_link w → respects startup_callback false w released.
Proof.
  intros Hw. apply respects_forget, respects_await_async.
  generalize (initializeMcpClient_respects w Hw). apply respects_mono.
  intros o h w' (-> & Hw' & _). repeat split; auto.
Qed.


Lemma reconnect_callback_respects (w : State) :
  one_link w → respects reconnect_callback false w released.
Proof.
  intros Hw. unfold reconnect_callback.
  apply respects_Put_other; [exact Hw|reflexivity..|].
  apply respects_forget.
  generalize (initializeMcpClient_respects
                (set_reconnectAttempts (S (reconnectAttempts w)) w)
                (one_link_frame _ _ Hw eq_refl eq_refl)).
  apply respects_mono. intros o h w' (-> & Hw' & _). split; auto.
Qed.

Lemma healthCheck_failed_respects (t : TimerId) (w : State) :
  one_link w →
  respects (Put (set_isConnected false) (Ret tt);;
            Put (clearInterval t) (Ret tt);;
            await_async initializeMcpClient;;
            Ret tt) false w released.
Proof.
  intros Hw. unfold mbind, Prog_bind.
  change (respects
            (Put (set_isConnected false)
               (Put (clearInterval t)
                  (bind (await_async initializeMcpClient) (fun _ => Ret tt))))
            false w released).
  apply respects_Put_other; [exact Hw|reflexivity..|].
  apply respects_Put_other; [eapply one_link_frame; eauto|reflexivity..|].
  apply await_initialize_respects.
  - eapply one_link_frame; eauto.
  - intros _ w2 Hw2. split; auto.
Qed.

Lemma healthCheck_respects (t : TimerId) (w : State) :
  one_link w → respects (healthCheck t) false w released.
Proof.
  intros Hw. apply respects_forget. simpl.
  destruct (negb (has_client w) || negb (isConnected w)).
  { apply respects_Put_other; [exact Hw|reflexivity..|].
    split; [reflexivity|]. eapply one_link_frame; eauto. }
  apply respects_try_catch. unfold mbind, Prog_bind. apply respects_bind.
  simpl. destruct (mcpClient w) as [c|] eqn:Hm; simpl.
  - repeat split; auto.
    intros a w1 Hw1 _. destruct a as [v|e]; simpl; [split; auto|].
    apply (healthCheck_failed_respects t w1 Hw1).
  - apply (healthCheck_failed_respects t w Hw).
Qed.

(** *** One turn of the event loop *)

Lemma turn_respects {R : Type} (p : Prog R) :
  ∀ holding w post,
    respects p holding w post →
    (holding = true → isInitializing w = true) →
    respects (turn p w).2 (turn_holds p holding w) (turn p w).1 post ∧
    turn (turn p w).2 (turn p w).1 = turn p w ∧
    (turn_holds p holding w = true → isInitializing (turn p w).1 = true) ∧
    (holding = false → isInitializing w = true →
     link_fields (turn p w).1 = link_fields w ∧
     isInitializing (turn p w).1 = true ∧
     turn_holds p holding w = false) ∧
    (holding = false → isInitializing w = false →
     isInitializing (turn p w).1 = turn_holds p holding w) ∧
    (holding = true → isInitializing (turn p w).1 = turn_holds p holding w).
Proof.
  induction p as [r|e|k IH|f k IH|c k IH|]; intros holding w post Hp Hh.
  1, 2, 5, 6: simpl; simpl in Hp; repeat split; auto; try congruence;
    try (intros; apply Hp; auto; fail); intros Ht; rewrite Ht; auto.
  - simpl in *. apply IH; auto.
  - simpl in Hp |- *. destruct Hp as (_ & Hput & Hk).
    assert (Hh' : holds_after holding w (f w) = true → isInitializing (f w) = true).
    { unfold holds_after. destruct holding; [auto|].
      destruct (isInitializing w), (isInitializing (f w)); auto. }
    destruct (IH _ _ _ Hk Hh') as (H1 & H2 & H3 & H4 & H5 & H6).
    split; [exact H1|]. split; [exact H2|]. split; [exact H3|].
    split; [|split].
    + intros ->. intros Hw. destruct (Hput eq_refl) as [Hl Hi].
      specialize (Hi Hw).
      assert (Hm : holds_after false w (f w) = false)
        by (unfold holds_after; rewrite Hw; reflexivity).
      rewrite Hm in *. destruct (H4 eq_refl Hi) as (Ha & Hb & Hc).
      repeat split; auto. congruence.
    + intros ->. intros Hw.
      assert (Hm : holds_after false w (f w) = isInitializing (f w))
        by (unfold holds_after; rewrite Hw; reflexivity).
      rewrite Hm in *.
      destruct (isInitializing (f w)) eqn:Hf; [apply H6|apply H5]; auto.
    + intros ->.
      assert (Hm : holds_after true w (f w) = isInitializing (f w)) by reflexivity.
      rewrite Hm in *.
      destruct (isInitializing (f w)) eqn:Hf; [apply H6|apply H5]; auto.
Qed.

(** *** The event loop keeps the invariant *)

Lemma waits_frame (t : Prog unit) (holding : bool) (w w' : State) :
  waits t holding w →
  one_link w' →
  (holding = true → mcpClient w' = mcpClient w) →
  waits t holding w'.
Proof.
  destruct t as [| | | |c k|]; simpl; auto.
  intros (_ & Hk) Hw' Hl. split; [exact Hw'|].
  intros a w'' Hw'' Hh. apply Hk; auto.
  intros ->. destruct (Hh eq_refl) as [H1 H2]. split; [|exact H2].
  rewrite H1. auto.
Qed.

Lemma link_fields_client (w w' : State) :
  link_fields w' = link_fields w → mcpClient w' = mcpClient w.
Proof. unfold link_fields. intros H. injection H as H _ _. exact H. Qed.

Lemma end_of_turn (p : Prog unit) (holding : bool) (w : State) :
  turn p w = (w, p) →
  respects p holding w released →
  one_link w ∧
  match suspended p with
  | Some t => t = p ∧ waits p holding w
  | None => holding = false
  end.
Proof.
  destruct p as [r|e|k|f k|c k|]; simpl; intros Ht Hp.
  - destruct Hp; auto.
  - destruct Hp; auto.
  - exfalso. revert Ht. generalize (k w). intros p Ht.
    assert (Hn : ∀ (q : Prog unit) w0, (turn q w0).2 ≠ Get k).
    { induction q; intros w0; simpl; auto; discriminate. }
    apply (Hn p w). rewrite Ht. reflexivity.
  - exfalso.
    assert (Hn : ∀ (q : Prog unit) w0, (turn q w0).2 ≠ Put f k).
    { induction q; intros w0; simpl; auto; discriminate. }
    apply (Hn k (f w)). rewrite Ht. reflexivity.
  - destruct Hp as (H1 & H3). auto.
  - destruct Hp; auto.
Qed.

Lemma turn_invariant (tasks : list (option (Prog unit))) (holder : option nat)
      (i : nat) (p : Prog unit) (w : State) :
  i < length tasks →
  (∀ j t, j ≠ i → tasks !! j = Some (Some t) →
          waits t (bool_decide (holder = Some j)) w) →
  respects p (bool_decide (holder = Some i)) w released →
  match holder with
  | Some j => isInitializing w = true ∧ (j = i ∨ ∃ t, tasks !! j = Some (Some t))
  | None => isInitializing w = false
  end →
  guard_invariant {| world := (turn p w).1;
                     pool := <[i := suspended (turn p w).2]> tasks |}.
Proof.
  intros Hi Hothers Hp Hholder.
  set (h := bool_decide (holder = Some i)) in *.
  assert (Hh : h = true → isInitializing w = true).
  { unfold h. intros Hb. apply bool_decide_eq_true in Hb. subst holder.
    apply Hholder. }
  destruct (turn_respects p h w released Hp Hh) as (H1 & H2 & H3 & H4 & H5 & H6).
  destruct (turn p w) as [w' p'] eqn:Hturn. simpl in *.
  set (h' := turn_holds p h w) in *.
  destruct (end_of_turn p' h' w' H2 H1) as [Hw' Hend].
  split; [exact Hw'|]. simpl.
  exists (if h' then Some i else if h then None else holder).
  split.
  - intros j t Hj. destruct (decide (j = i)) as [->|Hne].
    + rewrite list_lookup_insert_eq in Hj by exact Hi.
      injection Hj as Hj. rewrite Hj in Hend. destruct Hend as [-> Hwaits].
      replace (bool_decide ((if h' then Some i else if h then None else holder) = Some i))
        with h'; [exact Hwaits|].
      destruct h'; [rewrite bool_decide_eq_true_2; auto|].
      destruct h eqn:Hh0; [rewrite bool_decide_eq_false_2; auto; discriminate|].
      symmetry. exact Hh0.
    + rewrite list_lookup_insert_ne in Hj by auto.
      specialize (Hothers j t Hne Hj).
      destruct h eqn:Hh0.
      * (* the holder ran *)
        unfold h in Hh0. apply bool_decide_eq_true in Hh0. subst holder.
        rewrite bool_decide_eq_false_2 in Hothers by congruence.
        replace (bool_decide ((if h' then Some i else None) = Some j)) with false
          by (destruct h'; rewrite bool_decide_eq_false_2; congruence).
        eapply waits_frame; eauto. discriminate.
      * destruct (isInitializing w) eqn:Hflag.
        -- destruct (H4 eq_refl eq_refl) as (Hl & Hf & Hh').
           rewrite Hh'. eapply waits_frame; eauto.
           intros _. apply link_fields_client, Hl.
        -- destruct holder as [j0|]; [destruct Hholder; congruence|].
           rewrite bool_decide_eq_false_2 in Hothers by discriminate.
           replace (bool_decide ((if h' then Some i else None) = Some j)) with false
             by (destruct h'; rewrite bool_decide_eq_false_2; congruence).
           eapply waits_frame; eauto. discriminate.
  - destruct h' eqn:Hh'.
    + split; [auto|].
      destruct (suspended p') as [t|] eqn:Hs; [|discriminate].
      exists t. apply list_lookup_insert_eq. exact Hi.
    + destruct h eqn:Hh0; [rewrite H6; auto|].
      destruct holder as [j0|].
      * destruct Hholder as [Hflag Hj0].
        destruct (H4 eq_refl Hflag) as (Hl & Hf & _). split; [exact Hf|].
        destruct Hj0 as [->|[t Ht]].
        { unfold h in Hh0. rewrite bool_decide_eq_true_2 in Hh0; auto. discriminate. }
        exists t. rewrite list_lookup_insert_ne; auto.
        intros <-. unfold h in Hh0. rewrite bool_decide_eq_true_2 in Hh0; auto.
        discriminate.
      * rewrite H5; auto.
Qed.

Lemma callback_ready (p : Prog unit) (s : System) (w : State) :
  guard_invariant s →
  link_fields w = link_fields (world s) →
  isInitializing w = isInitializing (world s) →
  (∀ w1, one_link w1 → respects p false w1 released) →
  ∃ holder, ready holder w (pool s ++ [None]) (length (pool s)) p.
Proof.
  intros (Hw0 & holder & Htasks & Hholder) Hl Hf Hp.
  assert (Hw : one_link w) by (eapply one_link_same; eauto).
  assert (Hlt : ∀ j t, pool s !! j = Some (Some t) → j < length (pool s)).
  { intros j t Hj. eapply lookup_lt_Some; eauto. }
  assert (Hnot : bool_decide (holder = Some (length (pool s))) = false).
  { apply bool_decide_eq_false_2. intros ->. destruct Hholder as [_ [t Ht]].
    apply Hlt in Ht. lia. }
  exists holder. split; [exact Hw|]. split; [rewrite length_app; simpl; lia|].
  split; [|split].
  - intros j t Hne Hj.
    assert (Hj' : pool s !! j = Some (Some t)).
    { destruct (decide (j < length (pool s))) as [Hlt'|Hge].
      - rewrite lookup_app_l in Hj by exact Hlt'. exact Hj.
      - rewrite lookup_app_r in Hj by lia.
        destruct (j - length (pool s)) as [|n] eqn:Hd; [lia|].
        simpl in Hj. discriminate. }
    eapply waits_frame; eauto. intros _. apply link_fields_client, Hl.
  - rewrite Hnot. apply Hp, Hw.
  - destruct holder as [j|]; [|congruence].
    destruct Hholder as [Hflag [t Ht]]. split; [congruence|].
    right. exists t. rewrite lookup_app_l; eauto.
Qed.

Lemma closed_keeps_one_link (c : Handle) (w : State) :
  one_link w → one_link (closed c w).
Proof.
  intros [Hl|(h & Hl & Hm)]; unfold one_link, closed; cbn [live mcpClient]; rewrite Hl.
  - left. reflexivity.
  - destruct (decide (h = c)) as [->|Hne].
    + left. rewrite filter_cons_False by auto. reflexivity.
    + right. exists h. rewrite filter_cons_True by auto. auto.
Qed.

Lemma settled_keeps (c : ExtCall) (w : State) :
  (one_link w → one_link (settled c w)) ∧
  isInitializing (settled c w) = isInitializing w ∧
  mcpClient (settled c w) = mcpClient w.
Proof.
  destruct c; simpl; repeat split; auto.
  apply closed_keeps_one_link.
Qed.

Lemma shutdown_callback_respects (w : State) :
  one_link w → respects shutdown_callback false w released.
Proof.
  intros Hw. apply respects_forget. simpl.
  destruct (mcpClient w) as [c|]; simpl; [|split; auto].
  split; [exact Hw|].
  intros a w' Hw' _. pose proof (closed_keeps_one_link c w' Hw').
  destruct a; simpl; split; auto.
Qed.

Lemma dispatch_ready (ev : Event) (s : System) w tasks i p :
  guard_invariant s →
  dispatch ev s = Some (w, tasks, i, p) →
  ∃ holder, ready holder w tasks i p.
Proof.
  intros Hs Hd. destruct ev as [|fuel parsed| |t|j a|]; simpl in Hd.
  - injection Hd as <- <- <- <-.
    apply callback_ready; auto. apply startup_callback_respects.
  - injection Hd as <- <- <- <-.
    apply callback_ready; auto. intros w1. apply get_cookie_respects.
  - destruct (timeouts (world s)) as [|d rest]; [discriminate|].
    injection Hd as <- <- <- <-.
    apply callback_ready; auto. apply reconnect_callback_respects.
  - destruct (bool_decide (t ∈ intervals (world s))); [|discriminate].
    injection Hd as <- <- <- <-.
    apply callback_ready; auto. intros w1. apply healthCheck_respects.
  - destruct (pool s !! j) as [[q|]|] eqn:Hj; try discriminate.
    destruct q as [| | | |c k|]; try discriminate.
    injection Hd as <- <- <- <-.
    destruct Hs as (Hw & holder & Htasks & Hholder).
    destruct (settled_keeps c (world s)) as (Hone & Hflag & Hsame).
    pose proof (Htasks j _ Hj) as Hme. simpl in Hme.
    destruct Hme as (_ & Hk).
    exists holder. split; [auto|]. split; [eapply lookup_lt_Some; eauto|].
    split; [|split].
    + intros j' t Hne Hj'. specialize (Htasks j' t Hj').
      eapply waits_frame; eauto.
    + apply Hk; [exact Hw|]. intros Hb. apply bool_decide_eq_true in Hb.
      subst holder. split; [reflexivity|apply Hholder].
    + destruct holder as [j'|]; [|congruence].
      destruct Hholder as [Hf [t Ht]]. split; [congruence|].
      right. eauto.
  - injection Hd as <- <- <- <-.
    apply callback_ready; auto. apply shutdown_callback_respects.
Qed.

Lemma step_invariant (ev : Event) (s s' : System) :
  guard_invariant s → step ev s = Some s' → guard_invariant s'.
Proof.
  intros Hs Hstep. unfold step in Hstep.
  destruct (dispatch ev s) as [[[[w tasks] i] p]|] eqn:Hd; [|discriminate].
  destruct (dispatch_ready ev s w tasks i p Hs Hd) as (holder & _ & Hi & Ho & Hp & Hh).
  replace s' with {| world := (turn p w).1;
                     pool := <[i := suspended (turn p w).2]> tasks |}.
  2: { destruct (turn p w) as [w' p']. simpl. injection Hstep as <-. reflexivity. }
  apply turn_invariant with (holder := holder); auto.
Qed.

Lemma boot_invariant : guard_invariant boot.
Proof.
  split; [left; reflexivity|]. exists None. split; [|reflexivity].
  intros i t Hi. simpl in Hi. rewrite lookup_nil in Hi. discriminate.
Qed.

Lemma reachable_invariant (s : System) : reachable s → guard_invariant s.
Proof.
  intros [evs Hevs]. revert Hevs. generalize boot_invariant. generalize boot.
  induction evs as [|ev rest IH]; intros s0 Hs0 Hexec; simpl in Hexec.
  - injection Hexec as <-. exact Hs0.
  - destruct (step ev s0) as [s1|] eqn:Hstep; [|discriminate].
    apply (IH s1); auto. eapply step_invariant; eauto.
Qed.

Lemma passes_bounded {R : Type} (p : Prog R) :
  ∀ holding w post w',
    respects p holding w post → w' ∈ passes p w → length (live w') ≤ 1.
Proof.
  induction p as [r|e|k IH|f k IH|c k IH|]; intros holding w post w' Hp Hin;
    simpl in *; try (apply elem_of_nil in Hin; contradiction).
  - eapply IH; eauto.
  - destruct Hp as (Hlen & _ & Hk).
    apply elem_of_cons in Hin as [->|Hin]; [exact Hlen|].
    eapply IH; eauto.
Qed.

(** C9.  At most one client is live, and it is the one [mcpClient] holds:
    in every reachable state of the event loop and in every state passed
    through while an event is handled.  An initialize-attempt that finds a
    stale client awaits its [close()] first; however [close()] settles, it
    then clears [mcpClient], and only then makes the new client: in the first
    of the two states it passes through, [mcpClient] is [null] and the old
    client is not live; in the second, [mcpClient] is the new client, which is
    live.  A rejected [close()] never reaches the caller. *)
Theorem one_live_link :
  (∀ s, reachable s →
        length (live (world s)) ≤ 1 ∧
        (∀ h, h ∈ live (world s) → mcpClient (world s) = Some h) ∧
        (∀ ev w, w ∈ during ev s → length (live w) ≤ 1)) ∧
  (∀ w c, mcpClient w = Some c → isInitializing w = false → isConnected w = false →
          ∃ k, turn initializeMcpClient w
                 = (set_isInitializing true w, Await (Close c) k) ∧
               ∀ closing w1,
                 passes (k closing) (closed c w1)
                   = [set_mcpClient None (closed c w1);
                      new_Client (set_mcpClient None (closed c w1))] ∧
                 ∃ k', turn (k closing) (closed c w1)
                       = (new_Client (set_mcpClient None (closed c w1)),
                          Await (Connect (clients w1) MCP_SERVER_URL) k')) ∧
  (∀ c w1,
     mcpClient (set_mcpClient None (closed c w1)) = None ∧
     live (set_mcpClient None (closed c w1)) = filter (fun h => h ≠ c) (live w1) ∧
     clients (set_mcpClient None (closed c w1)) = clients w1 ∧
     mcpClient (new_Client (set_mcpClient None (closed c w1))) = Some (clients w1) ∧
     live (new_Client (set_mcpClient None (closed c w1)))
       = clients w1 :: filter (fun h => h ≠ c) (live w1) ∧
     clients (new_Client (set_mcpClient None (closed c w1))) = S (clients w1)) ∧
  (∀ w c closing a,
     mcpClient w = Some c → isInitializing w = false → isConnected w = false →
     ∃ w' b,
       run initializeMcpClient [closing; a] w
         = Some (w', Returned b, [Close c; Connect (clients w) MCP_SERVER_URL])).
Proof.
  split; [|split; [|split]].
  - intros s Hr. apply reachable_invariant in Hr.
    pose proof Hr as (Hw & _).
    split; [apply one_link_length, Hw|]. split.
    + intros h Hh. destruct Hw as [Hl|(h' & Hl & Hm)]; rewrite Hl in Hh.
      * apply elem_of_nil in Hh. contradiction.
      * apply list_elem_of_singleton in Hh. congruence.
    + intros ev w Hin. unfold during in Hin.
      destruct (dispatch ev s) as [[[[w0 tasks] i] p]|] eqn:Hd;
        [|apply elem_of_nil in Hin; contradiction].
      destruct (dispatch_ready ev s w0 tasks i p Hr Hd)
        as (holder & Hw0 & _ & _ & Hp & _).
      apply elem_of_cons in Hin as [->|Hin].
      * apply one_link_length, Hw0.
      * eapply passes_bounded; eauto.
  - intros w c. apply stale_client_closed_first.
  - intros c w1. apply old_client_dropped.
  - intros w c closing a. apply close_errors_swallowed.
Qed.

(** For instance, after the forwarder has reconnected. *)
Lemma one_live_link_witness :
  ∃ s, exec forwarder_reconnects boot = Some s ∧
       live (world s) = [1] ∧
       length (live (world s)) ≤ 1 ∧
       (∀ h, h ∈ live (world s) → mcpClient (world s) = Some h) ∧
       (∀ ev w, w ∈ during ev s → length (live w) ≤ 1).
Proof.
  eexists. split; [vm_compute; reflexivity|]. split; [reflexivity|].
  apply (proj1 one_live_link). exists forwarder_reconnects. vm_compute. reflexivity.
Defined.

(** C5.  The guard is set while an initialize-attempt is under way and
    cleared when it ends, whichever way it ends.  For one attempt: it is
    suspended only with [isInitializing] set, and it ends, returning or
    throwing, with [isInitializing] cleared; the [finally] block does this
    for any body.  For the event loop: whenever [isInitializing] is set, an
    async function is suspended; with none suspended the flag is clear. *)
Theorem guard_set_for_one_attempt :
  (∀ w, isInitializing w = false → isConnected w && has_client w = false →
        guarded initializeMcpClient w ∧
        ∀ answers w' o calls,
          run initializeMcpClient answers w = Some (w', o, calls) →
          isInitializing w' = false) ∧
  (∀ (body : Prog bool) answers w w' o calls,
     run (try_finally body (set_isInitializing false)) answers w = Some (w', o, calls) →
     isInitializing w' = false) ∧
  (∀ s, reachable s →
        (isInitializing (world s) = true → ∃ j t, pool s !! j = Some (Some t)) ∧
        (idle s → isInitializing (world s) = false)).
Proof.
  split; [|split].
  - intros w Hi Hc. pose proof (attempt_guarded w Hi Hc) as Hg.
    split; [exact Hg|]. intros answers w' o calls. apply run_guarded, Hg.
  - intros body. apply try_finally_clears.
  - intros s Hr. apply reachable_invariant in Hr.
    destruct Hr as (_ & holder & _ & Hholder).
    assert (Hset : isInitializing (world s) = true → ∃ j t, pool s !! j = Some (Some t)).
    { intros Hflag. destruct holder as [j|]; [|congruence].
      destruct Hholder as [_ [t Ht]]. eauto. }
    split; [exact Hset|].
    intros Hidle. destruct (isInitializing (world s)) eqn:Hflag; [|reflexivity].
    destruct (Hset eq_refl) as (j & t & Hj).
    apply list_elem_of_lookup_2 in Hj.
    unfold idle in Hidle. rewrite Forall_forall in Hidle.
    apply Hidle in Hj. discriminate.
Qed.

(** For instance, an attempt from the initial state, and the forwarder's
    reconnection while its [connect] is awaited. *)
Lemma guard_set_for_one_attempt_witness :
  (guarded initializeMcpClient initial ∧
   ∀ answers w' o calls,
     run initializeMcpClient answers initial = Some (w', o, calls) →
     isInitializing w' = false) ∧
  ∃ s, exec forwarder_reconnecting boot = Some s ∧
       isInitializing (world s) = true ∧
       ∃ j t, pool s !! j = Some (Some t).
Proof.
  split.
  - apply (proj1 guard_set_for_one_attempt initial); reflexivity.
  - eexists. split; [vm_compute; reflexivity|]. split; [reflexivity|].
    apply (proj2 (proj2 guard_set_for_one_attempt)).
    + exists forwarder_reconnecting. vm_compute. reflexivity.
    + reflexivity.
Defined.

(* ===================================================================== *)
(** ** What holds however the callbacks interleave: proofs *)
(* ===================================================================== *)

Lemma always_mono {R : Type} (post post' : Outcome R -> State -> Prop) (p : Prog R) :
  (∀ o w, post o w → post' o w) →
  ∀ w, always post p w → always post' p w.
Proof.
  intros Hpost. induction p as [r|e|k IH|f k IH|c k IH|]; intros w; simpl; auto.
Qed.

Lemma always_bind {A B : Type} (post : Outcome B -> State -> Prop)
      (p : Prog A) (f : A -> Prog B) :
  ∀ w,
    always (fun o w' => match o with
                        | Returned r => always post (f r) w'
                        | Thrown e => post (Thrown e) w'
                        end) p w →
    always post (bind p f) w.
Proof. induction p as [r|e|k IH|g k IH|c k IH|]; intros w; simpl; auto. Qed.

Lemma always_try_catch {A : Type} (post : Outcome A -> State -> Prop)
      (p : Prog A) (h : Err -> Prog A) :
  ∀ w,
    always (fun o w' => match o with
                        | Returned r => post (Returned r) w'
                        | Thrown e => always post (h e) w'
                        end) p w →
    always post (try_catch p h) w.
Proof. induction p as [r|e|k IH|g k IH|c k IH|]; intros w; simpl; auto. Qed.

Lemma always_await_async {A : Type} (post : Outcome A -> State -> Prop) (p : Prog A) :
  ∀ w, always (fun o _ => ∀ w', post o w') p w → always post (await_async p) w.
Proof. induction p as [r|e|k IH|g k IH|c k IH|]; intros w; simpl; auto. Qed.

(** In particular for a call run alone. *)
Lemma run_always {R : Type} (post : Outcome R -> State -> Prop) (p : Prog R) :
  ∀ answers w w' o calls,
    always post p w →
    run p answers w = Some (w', o, calls) →
    post o w'.
Proof.
  induction p as [r|e|k IH|f k IH|c k IH|]; intros answers w w' o calls Hp Hrun;
    simpl in Hp.
  - simpl in Hrun. destruct answers; [|discriminate]. injection Hrun as <- <- _. exact Hp.
  - simpl in Hrun. destruct answers; [|discriminate]. injection Hrun as <- <- _. exact Hp.
  - simpl in Hrun. eapply IH; eauto.
  - simpl in Hrun. eapply IH; eauto.
  - destruct (Tick_or_not c) as [->|Hc].
    + simpl in Hrun. eapply IH; [apply Hp|exact Hrun].
    + rewrite run_Await in Hrun by exact Hc.
      destruct answers as [|a rest]; [discriminate|].
      destruct (run (k a) rest (settled c w)) as [[[w1 o1] calls1]|] eqn:Hk1;
        [|discriminate].
      injection Hrun as <- <- <-. eapply IH; [apply Hp|exact Hk1].
  - discriminate.
Qed.

#[local] Transparent initializeMcpClient.

(** [initializeMcpClient] never throws. *)
Lemma initializeMcpClient_returns (w : State) :
  always (fun o _ => ∃ b, o = Returned b) initializeMcpClient w.
Proof.
  simpl. destruct (isInitializing w); [simpl; eauto|].
  destruct (isConnected w && has_client w); [simpl; eauto|].
  simpl. destruct (mcpClient w) as [c|]; simpl.
  - intros a w1. destruct a as [v|e]; simpl; intros a w2; destruct a as [v'|e']; simpl;
      repeat match goal with
             | |- context [if ?b then _ else _] => destruct b
             end; simpl; eauto.
  - intros a w2; destruct a as [v'|e']; simpl;
      repeat match goal with
             | |- context [if ?b then _ else _] => destruct b
             end; simpl; eauto.
Qed.

#[local] Opaque initializeMcpClient.

Lemma sendToMcpServer_throws_from_client (fuel : nat) (msg : Message) :
  ∀ w, has_client w && isConnected w = true →
       always (fun o _ => match o with
                          | Thrown e => from_client e
                          | Returned _ => True
                          end) (sendToMcpServer fuel msg) w.
Proof.
  induction fuel as [|fuel IH]; intros w Hw; [exact I|].
  simpl. apply andb_true_iff in Hw as [Hc Hi]. rewrite Hc, Hi. simpl.
  assert (Hhandler : ∀ error w1,
    always (fun o _ => match o with
                       | Thrown e => from_client e
                       | Returned _ => True
                       end)
      (if is_connection_error error
       then Put (set_isConnected false) (Ret tt);;
            await_async initializeMcpClient;;
            Get (fun w => if isConnected w && has_client w
                          then await_async (sendToMcpServer fuel msg)
                          else Throw (client_error error))
       else Throw (client_error error)) w1).
  { intros error w1. destruct (is_connection_error error); [|simpl; eexists; reflexivity].
    unfold mbind, Prog_bind. cbn [bind always].
    apply always_bind, always_await_async.
    generalize (initializeMcpClient_returns (set_isConnected false w1)).
    apply always_mono. intros o _ [b ->] w2. simpl.
    destruct (isConnected w2 && has_client w2) eqn:Hw2; [|simpl; eexists; reflexivity].
    apply always_await_async.
    assert (Hw2' : has_client w2 && isConnected w2 = true)
      by (rewrite andb_comm; exact Hw2).
    generalize (IH w2 Hw2'). apply always_mono. intros o _ Ho _. exact Ho. }
  unfold has_client in Hc.
  destruct (String.eqb (method msg) "tools/call"); simpl;
    destruct (mcpClient w) as [c|]; try discriminate; simpl;
    intros a w1; destruct a as [v|e]; simpl; auto; apply Hhandler.
Qed.

(** A JSON reply carries the CORS headers. *)
Lemma json_cors (r : Response) (h : string * string) :
  h ∈ Server.cors → h ∈ Server.headers (Server.json r).
Proof.
  intros Hh. unfold Server.json. cbn [Server.headers].
  apply elem_of_app. left. exact Hh.
Qed.

Ltac member :=
  first [apply list_elem_of_here | apply list_elem_of_further; member].

(** A JSON reply with a status of [statuses] other than 500 is well formed. *)
Lemma json_well_formed (r : Response) :
  status r ∈ statuses → status r ≠ 500 → well_formed (Server.json r).
Proof.
  intros Hr H500. split; [apply json_cors|split]; [exact Hr|].
  intros H. destruct (H500 H).
Qed.

Ltac plain_reply :=
  apply json_well_formed; [simpl; unfold statuses; member | simpl; discriminate].

(** The cookie route answers, and with what. *)
Lemma get_cookie_answers (fuel : nat) (parsed : Parsed) (w : State) :
  always (fun o _ => ∃ r, o = Returned r ∧ well_formed (Server.json r))
         (get_cookie fuel parsed) w.
Proof.
  unfold get_cookie, template. apply always_try_catch. unfold mbind, Prog_bind.
  destruct parsed as [e|v]; simpl.
  { eexists. split; [reflexivity|]. plain_reply. }
  destruct (destructure_url v) as [e|url]; simpl.
  { eexists. split; [reflexivity|]. plain_reply. }
  destruct (negb (truthy url)); simpl.
  { eexists. split; [reflexivity|]. plain_reply. }
  destruct (to_text url) as [e|text]; simpl.
  { eexists. split; [reflexivity|]. plain_reply. }
  destruct (negb (has_client w) || negb (isConnected w)) eqn:Hw.
  { simpl. eexists. split; [reflexivity|]. plain_reply. }
  apply always_try_catch, always_bind, always_await_async.
  assert (Hready : has_client w && isConnected w = true).
  { destruct (has_client w), (isConnected w); auto. }
  generalize (sendToMcpServer_throws_from_client fuel (get_cookie_message url) w Hready).
  apply always_mono. intros o _ Ho w1. destruct o as [r|e]; simpl.
  - eexists. split; [reflexivity|]. plain_reply.
  - eexists. split; [reflexivity|]. split; [apply json_cors|split].
    + simpl. unfold statuses. member.
    + intros _. exists e. split; [exact Ho|reflexivity].
Qed.

(** The callback of [http.createServer] ends with an exception only where
    [url.parse] throws, before any [try]: then nothing is sent.  For any
    other request, whatever the state, whatever values the promises of the
    client resolve to or [Error] objects they reject with, and whatever
    states the other callbacks leave at each await, it can only end by
    sending one reply, and that reply is [well_formed]: the three CORS
    headers, a status among 200, 400, 404, 500 and 503, and for a 500 the
    [details] of an error that [sendToMcpServer] wrapped.  (That it ends is
    another matter: the forwarder can retry for ever.) *)
Theorem listener_outcome (fuel : nat) (now : string) (parsed_url : Err + option string)
        (method : string) (parsed : Parsed) (w : State) :
  always (fun o _ => match parsed_url with
                     | inl e => o = Thrown e
                     | inr _ => ∃ reply, o = Returned reply ∧ well_formed reply
                     end)
         (Server.listener fuel now parsed_url method parsed) w ∧
  ∀ answers w' o calls,
    run (Server.listener fuel now parsed_url method parsed) answers w
      = Some (w', o, calls) →
    match parsed_url with
    | inl e => o = Thrown e ∧ w' = w ∧ calls = []
    | inr _ => ∃ reply, o = Returned reply ∧ well_formed reply
    end.
Proof.
  assert (H : always (fun o _ => match parsed_url with
                                 | inl e => o = Thrown e
                                 | inr _ => ∃ reply, o = Returned reply ∧ well_formed reply
                                 end)
                     (Server.listener fuel now parsed_url method parsed) w).
  { unfold Server.listener. destruct parsed_url as [e|pathname]; [reflexivity|].
    unfold Server.handler. cbn [Server.method Server.pathname Server.parsed].
    destruct (String.eqb method "OPTIONS").
    { simpl. eexists. split; [reflexivity|]. split; [|split].
      - auto.
      - simpl. unfold statuses. member.
      - simpl. discriminate. }
    generalize (default "" pathname). clear pathname. intros pathname.
    destruct (String.eqb pathname "/ping" && String.eqb method "GET").
    { simpl. eexists. split; [reflexivity|]. plain_reply. }
    destruct (String.eqb pathname "/tools/get-cookie" && String.eqb method "POST").
    { unfold mbind, Prog_bind. apply always_bind.
      generalize (get_cookie_answers fuel parsed w).
      apply always_mono. intros o w' (r & -> & Hr). simpl. eauto. }
    destruct (String.eqb pathname "/tools" && String.eqb method "GET").
    { simpl. eexists. split; [reflexivity|]. plain_reply. }
    simpl. eexists. split; [reflexivity|]. plain_reply. }
  split; [exact H|].
  intros answers w' o calls Hrun.
  pose proof (run_always _ _ answers w w' o calls H Hrun) as Ho.
  destruct parsed_url as [e|pathname]; [|exact Ho].
  simpl in Hrun. destruct answers; [|discriminate].
  injection Hrun as <- <- <-. auto.
Qed.

(* ===================================================================== *)
(** ** The routes *)
(* ===================================================================== *)

(** Only [POST /tools/get-cookie] can touch the client or the state:
    any other request (a preflight on any path, [/ping], [/tools], an unknown
    path, a known path with another method) is answered in the turn it
    arrives in, with no assignment, no await and no call. *)
Theorem other_routes_read_only (fuel : nat) (now : string) (req : Server.Request)
        (w : State) :
  Server.pathname req ≠ "/tools/get-cookie" ∨ Server.method req ≠ "POST" →
  ∃ reply,
    turn (Server.handler fuel now req) w = (w, Ret reply) ∧
    passes (Server.handler fuel now req) w = [] ∧
    run (Server.handler fuel now req) [] w = Some (w, Returned reply, []).
Proof.
  intros Hreq. unfold Server.handler.
  destruct (String.eqb (Server.method req) "OPTIONS"); [eexists; simpl; eauto|].
  destruct (String.eqb (Server.pathname req) "/ping" && String.eqb (Server.method req) "GET");
    [eexists; simpl; eauto|].
  destruct (String.eqb (Server.pathname req) "/tools/get-cookie") eqn:Hp;
    destruct (String.eqb (Server.method req) "POST") eqn:Hm; simpl.
  - apply String.eqb_eq in Hp, Hm. destruct Hreq as [H|H]; contradiction.
  - destruct (String.eqb (Server.pathname req) "/tools" && String.eqb (Server.method req) "GET");
      eexists; simpl; eauto.
  - destruct (String.eqb (Server.pathname req) "/tools" && String.eqb (Server.method req) "GET");
      eexists; simpl; eauto.
  - destruct (String.eqb (Server.pathname req) "/tools" && String.eqb (Server.method req) "GET");
      eexists; simpl; eauto.
Qed.

Lemma other_routes_read_only_witness :
  (Server.pathname ping_request ≠ "/tools/get-cookie"
   ∨ Server.method ping_request ≠ "POST") ∧
  ∃ reply,
    turn (Server.handler 0 "2025-01-01T00:00:00.000Z" ping_request) connected
      = (connected, Ret reply) ∧
    passes (Server.handler 0 "2025-01-01T00:00:00.000Z" ping_request) connected = [] ∧
    run (Server.handler 0 "2025-01-01T00:00:00.000Z" ping_request) [] connected
      = Some (connected, Returned reply, []).
Proof.
  split; [left; discriminate|].
  apply (other_routes_read_only 0 "2025-01-01T00:00:00.000Z" ping_request connected).
  left. discriminate.
Defined.

(** With a usable url and the wrapper ready, the cookie route answers 200
    or 500. *)
Lemma get_cookie_ready (fuel : nat) (v url : JsValue) (text : string) (w : State) :
  destructure_url v = inr url →
  truthy url = true →
  to_text url = inr text →
  has_client w && isConnected w = true →
  always (fun o _ => ∃ r, o = Returned r ∧ (status r = 200 ∨ status r = 500))
         (get_cookie fuel (Value v)) w.
Proof.
  intros Hd Ht Hp Hw. unfold get_cookie, template. unfold mbind, Prog_bind.
  rewrite Hd. simpl. rewrite Ht. simpl. rewrite Hp. simpl.
  replace (negb (has_client w) || negb (isConnected w)) with false
    by (destruct (has_client w), (isConnected w); auto; discriminate).
  apply always_try_catch.
  apply always_mono with (post := fun o _ => ∃ r, o = Returned r ∧ (status r = 200 ∨ status r = 500)).
  { intros o w1 (r & -> & Hr). eauto. }
  apply always_try_catch, always_bind, always_await_async.
  generalize (sendToMcpServer_throws_from_client fuel (get_cookie_message url) w Hw).
  apply always_mono. intros o _ _ w1. destruct o as [r|e]; simpl; eauto.
Qed.

(** A call run alone runs its first turn and then the rest. *)
Lemma run_turn {R : Type} (p : Prog R) (answers : list Answer) :
  ∀ w, run p answers w = run (turn p w).2 answers (turn p w).1.
Proof. induction p as [r|e|k IH|f k IH|c k IH|]; intros w; simpl; auto. Qed.

(** The three routes agree on whether the wrapper is ready: a cookie request
    that gets as far as the test (its [url] is truthy and can be written into
    the log line) is turned away with 503 exactly when [/ping] reports
    [mcpClientReady: false] for the state the request arrives in, and exactly
    when [/tools] reports the tool as [initializing]. *)
Theorem readiness_agrees (fuel : nat) (now : string) (v url : JsValue) (text : string)
        (w : State) :
  destructure_url v = inr url →
  truthy url = true →
  to_text url = inr text →
  ∀ answers w' r calls,
    run (get_cookie fuel (Value v)) answers w = Some (w', Returned r, calls) →
    (status r = 503 ↔ prop "mcpClientReady" (body (Server.pong now w)) = JBool false) ∧
    (status r = 503
     ↔ prop "status" (first_item (prop "tools" (body (Server.tools w))))
       = JStr "initializing").
Proof.
  intros Hd Ht Hp answers w' r calls Hrun. simpl.
  destruct (has_client w && isConnected w) eqn:Hw.
  - pose proof (run_always _ _ _ _ _ _ _ (get_cookie_ready fuel v url text w Hd Ht Hp Hw)
                           Hrun)
      as (r' & Hr' & Hs).
    injection Hr' as <-.
    split; split; intros H; try discriminate; destruct Hs as [Hs|Hs]; rewrite Hs in H;
      discriminate.
  - destruct (get_cookie_not_ready fuel v url text w Hw Hd Ht Hp) as (Hturn & _ & _).
    rewrite run_turn, Hturn in Hrun. simpl in Hrun.
    destruct answers; [|discriminate]. injection Hrun as _ <- _.
    split; split; reflexivity.
Qed.

Lemma readiness_agrees_witness :
  destructure_url example_body = inr example_url ∧
  truthy example_url = true ∧
  to_text example_url = inr "https://example.com" ∧
  run (get_cookie 1 (Value example_body)) [] initial
    = Some (initial, Returned (client_not_ready initial), []) ∧
  (status (client_not_ready initial) = 503
   ↔ prop "mcpClientReady" (body (Server.pong "2025-01-01T00:00:00.000Z" initial))
     = JBool false) ∧
  (status (client_not_ready initial) = 503
   ↔ prop "status" (first_item (prop "tools" (body (Server.tools initial))))
     = JStr "initializing").
Proof.
  split; [vm_compute; reflexivity|]. split; [vm_compute; reflexivity|].
  split; [vm_compute; reflexivity|]. split; [vm_compute; reflexivity|].
  apply (readiness_agrees 1 "2025-01-01T00:00:00.000Z" example_body example_url
           "https://example.com" initial
           (ltac:(vm_compute; reflexivity)) (ltac:(vm_compute; reflexivity))
           (ltac:(vm_compute; reflexivity))
           [] initial (client_not_ready initial) []).
  vm_compute. reflexivity.
Defined.

(* ===================================================================== *)
(** ** More on single calls *)
(* ===================================================================== *)

#[local] Transparent initializeMcpClient.

(** Once an attempt has opened the link, calling [initializeMcpClient]
    again changes nothing: the second call returns [true] in its first turn,
    assigns nothing, and makes no call on the client (no second client, no
    second health timer). *)
Theorem initialize_idempotent (w : State) (closing : Answer) (v : JsValue) :
  isInitializing w = false →
  isConnected w && has_client w = false →
  ∃ w' calls,
    run initializeMcpClient (open_answers w closing v) w
      = Some (w', Returned true, calls) ∧
    turn initializeMcpClient w' = (w', Ret true) ∧
    passes initializeMcpClient w' = [] ∧
    run initializeMcpClient [] w' = Some (w', Returned true, []).
Proof.
  intros Hi Hc. destruct w as [mc ii ic ra cl lv tm iv to]. simpl in *. subst ii.
  unfold open_answers, has_client in *. simpl in *.
  destruct mc as [c|]; simpl.
  - rewrite Hc. simpl. destruct closing; simpl; eexists _, _; repeat split; reflexivity.
  - rewrite Hc. simpl. eexists _, _; repeat split; reflexivity.
Qed.

Lemma initialize_idempotent_witness :
  isInitializing initial = false ∧
  isConnected initial && has_client initial = false ∧
  ∃ w' calls,
    run initializeMcpClient (open_answers initial done JUndefined) initial
      = Some (w', Returned true, calls) ∧
    turn initializeMcpClient w' = (w', Ret true) ∧
    passes initializeMcpClient w' = [] ∧
    run initializeMcpClient [] w' = Some (w', Returned true, []).
Proof.
  split; [reflexivity|]. split; [reflexivity|].
  apply (initialize_idempotent initial done JUndefined); reflexivity.
Defined.

(** An initialize-attempt whose [connect] rejects returns [false] (it
    does not throw) with the guard released and the wrapper not connected.
    The variable [mcpClient] is left holding the client that failed to
    connect, not [null]; the counter is as it was; no health timer is
    started; and one retry is scheduled, [RECONNECT_DELAY] ahead, exactly
    when the counter is below [MAX_RECONNECT_ATTEMPTS]. *)
Theorem initialize_failure (w : State) (closing : Answer) (e : Err) :
  isInitializing w = false →
  isConnected w && has_client w = false →
  ∃ w' calls,
    run initializeMcpClient (attempt_answers w closing (Rejected e)) w
      = Some (w', Returned false, calls) ∧
    last calls = Some (Connect (clients w) MCP_SERVER_URL) ∧
    isInitializing w' = false ∧
    isConnected w' = false ∧
    mcpClient w' = Some (clients w) ∧
    reconnectAttempts w' = reconnectAttempts w ∧
    intervals w' = intervals w ∧
    timeouts w' = timeouts w ++ (if reconnectAttempts w <? MAX_RECONNECT_ATTEMPTS
                                 then [RECONNECT_DELAY] else []).
Proof.
  intros Hi Hc. destruct w as [mc ii ic ra cl lv tm iv to]. simpl in *. subst ii.
  unfold attempt_answers, has_client in *. simpl in *.
  destruct mc as [c|]; simpl.
  - rewrite Hc. simpl.
    destruct closing; simpl; destruct (ra <? MAX_RECONNECT_ATTEMPTS); simpl;
      eexists _, _; repeat split; try reflexivity; simpl; rewrite ?app_nil_r; reflexivity.
  - rewrite Hc. simpl.
    destruct (ra <? MAX_RECONNECT_ATTEMPTS); simpl;
      eexists _, _; repeat split; try reflexivity; simpl; rewrite ?app_nil_r; reflexivity.
Qed.

Lemma initialize_failure_witness :
  isInitializing initial = false ∧
  isConnected initial && has_client initial = false ∧
  ∃ w' calls,
    run initializeMcpClient (attempt_answers initial done (Rejected refused)) initial
      = Some (w', Returned false, calls) ∧
    last calls = Some (Connect (clients initial) MCP_SERVER_URL) ∧
    isInitializing w' = false ∧
    isConnected w' = false ∧
    mcpClient w' = Some (clients initial) ∧
    reconnectAttempts w' = reconnectAttempts initial ∧
    intervals w' = intervals initial ∧
    timeouts w' = timeouts initial
                  ++ (if reconnectAttempts initial <? MAX_RECONNECT_ATTEMPTS
                      then [RECONNECT_DELAY] else []).
Proof.
  split; [reflexivity|]. split; [reflexivity|].
  apply (initialize_failure initial done refused); reflexivity.
Defined.

(** A forwarded call that succeeds, or that fails with an error whose
    message has neither [connection] nor [closed] in it (a timeout, say),
    makes exactly one call on the client and leaves the state as it was: no
    reconnection is tried.  The caller gets the result as it is, or the error
    with its message prefixed. *)
Theorem forward_single_call (fuel : nat) (msg : Message) (w : State) (c : Handle)
        (a : Answer) :
  mcpClient w = Some c →
  isConnected w = true →
  (∀ e, a = Rejected e → is_connection_error e = false) →
  run (sendToMcpServer (S fuel) msg) [a] w
    = Some (w,
            match a with
            | Resolved r => Returned r
            | Rejected e => Thrown (client_error e)
            end,
            [link_call msg c]).
Proof.
  intros Hc Hi Ha. destruct a as [r|e].
  - apply forward_succeeds; assumption.
  - apply forward_other_failure; auto.
Qed.

Lemma forward_single_call_witness :
  mcpClient connected = Some 0 ∧
  isConnected connected = true ∧
  is_connection_error timed_out = false ∧
  run (sendToMcpServer 1 (get_cookie_message example_url)) [Rejected timed_out] connected
    = Some (connected, Thrown (client_error timed_out),
            [link_call (get_cookie_message example_url) 0]).
Proof.
  split; [reflexivity|]. split; [reflexivity|]. split; [vm_compute; reflexivity|].
  apply (forward_single_call 0 (get_cookie_message example_url) connected 0
                             (Rejected timed_out)).
  - reflexivity.
  - reflexivity.
  - intros e He. injection He as <-. vm_compute. reflexivity.
Defined.

(** When the reconnection after a connection fault fails, the caller
    gets the fault of the call (prefixed), not the error of [connect]; the
    operation is not sent again.  The wrapper is left not connected, holding
    the client that failed to connect, with the health timers as they were
    and a retry scheduled if the counter allows. *)
Theorem forward_reconnect_failed (fuel : nat) (msg : Message) (w : State) (c : Handle)
        (e e' : Err) (closing : Answer) :
  mcpClient w = Some c →
  isConnected w = true →
  isInitializing w = false →
  is_connection_error e = true →
  ∃ w',
    run (sendToMcpServer (S fuel) msg) [Rejected e; closing; Rejected e'] w
      = Some (w', Thrown (client_error e),
              [link_call msg c; Close c; Connect (clients w) MCP_SERVER_URL]) ∧
    isConnected w' = false ∧
    isInitializing w' = false ∧
    mcpClient w' = Some (clients w) ∧
    intervals w' = intervals w ∧
    timeouts w' = timeouts w ++ (if reconnectAttempts w <? MAX_RECONNECT_ATTEMPTS
                                 then [RECONNECT_DELAY] else []).
Proof.
  intros Hc Hi Hg He. unfold link_call.
  destruct w as [mc ii ic ra cl lv tm iv to]. simpl in Hc, Hi, Hg. subst.
  simpl. destruct (String.eqb (method msg) "tools/call"); simpl; rewrite He; simpl;
    destruct closing; simpl; destruct (ra <? MAX_RECONNECT_ATTEMPTS); simpl;
    eexists; repeat split; rewrite ?app_nil_r; reflexivity.
Qed.

Lemma forward_reconnect_failed_witness :
  mcpClient connected = Some 0 ∧
  isConnected connected = true ∧
  isInitializing connected = false ∧
  is_connection_error connection_closed = true ∧
  ∃ w',
    run (sendToMcpServer 1 ping) [Rejected connection_closed; done; Rejected refused]
        connected
      = Some (w', Thrown (client_error connection_closed),
              [link_call ping 0; Close 0; Connect (clients connected) MCP_SERVER_URL]) ∧
    isConnected w' = false ∧
    isInitializing w' = false ∧
    mcpClient w' = Some (clients connected) ∧
    intervals w' = intervals connected ∧
    timeouts w' = timeouts connected
                  ++ (if reconnectAttempts connected <? MAX_RECONNECT_ATTEMPTS
                      then [RECONNECT_DELAY] else []).
Proof.
  split; [reflexivity|]. split; [reflexivity|]. split; [reflexivity|].
  split; [vm_compute; reflexivity|].
  apply (forward_reconnect_failed 0 ping connected 0 connection_closed refused done);
    vm_compute; reflexivity.
Defined.




(** A reconnection timer that fires while an attempt is in progress is
    used up for nothing: the counter is incremented, the guard makes
    [initializeMcpClient] return at once, and nothing else happens (no call
    on the client, no new timer, nothing left suspended). *)
Theorem retry_dropped_while_initializing (s : System) (d : N) (rest : list N) :
  isInitializing (world s) = true →
  timeouts (world s) = d :: rest →
  ∃ s',
    step ReconnectTimer s = Some s' ∧
    world s' = set_reconnectAttempts (S (reconnectAttempts (world s)))
                                     (pop_timeout (world s)) ∧
    timeouts (world s') = rest ∧
    pool s' = pool s ++ [None].
Proof.
  intros Hi Ht. unfold step, dispatch. rewrite Ht.
  unfold reconnect_callback, forget. simpl. rewrite Hi. simpl.
  eexists. split; [reflexivity|]. simpl. rewrite Ht. simpl.
  split; [reflexivity|]. split; [reflexivity|].
  rewrite insert_app_r_alt by lia. rewrite Nat.sub_diag. reflexivity.
Qed.

Lemma retry_dropped_while_initializing_witness :
  ∃ s,
    exec retry_meets_attempt boot = Some s ∧
    isInitializing (world s) = true ∧
    timeouts (world s) = [RECONNECT_DELAY] ∧
    ∃ s',
      step ReconnectTimer s = Some s' ∧
      world s' = set_reconnectAttempts (S (reconnectAttempts (world s)))
                                       (pop_timeout (world s)) ∧
      timeouts (world s') = [] ∧
      pool s' = pool s ++ [None].
Proof.
  destruct (exec retry_meets_attempt boot) as [s|] eqn:Hs; [|discriminate Hs].
  exists s. split; [reflexivity|].
  assert (Hi : isInitializing (world s) = true).
  { vm_compute in Hs. injection Hs as <-. reflexivity. }
  assert (Ht : timeouts (world s) = [RECONNECT_DELAY]).
  { vm_compute in Hs. injection Hs as <-. reflexivity. }
  split; [exact Hi|]. split; [exact Ht|].
  exact (retry_dropped_while_initializing s RECONNECT_DELAY [] Hi Ht).
Defined.

(** Each reconnection made by the forwarder starts a health timer and stops
    none: after [n] connection faults in a row, each followed by a
    reconnection that succeeds, [n] more health timers are running than
    before the call. *)
Theorem health_timers_accumulate (msg : Message) (r : JsValue) (n : nat) :
  ∀ w c,
    mcpClient w = Some c →
    isConnected w = true →
    isInitializing w = false →
    ∃ w' calls,
      run (sendToMcpServer (S n) msg) (faults n ++ [Resolved r]) w
        = Some (w', Returned r, calls) ∧
      isConnected w' = true ∧
      length (intervals w') = n + length (intervals w).
Proof.
  induction n as [|n IH]; intros w c Hc Hi Hg.
  - exists w, [link_call msg c]. split; [|split; [exact Hi|reflexivity]].
    apply forward_succeeds; auto.
  - destruct (reconnected_ready c w) as (Hc' & Hi' & Hg').
    destruct (IH _ _ Hc' Hi' Hg') as (w' & calls & Hrun & Hconn & Hlen).
    exists w', (link_call msg c :: Close c :: Connect (clients w) MCP_SERVER_URL :: calls).
    split; [|split; [exact Hconn|]].
    + change (faults (S n) ++ [Resolved r])
        with (Rejected connection_closed :: done :: Resolved JUndefined
                :: (faults n ++ [Resolved r])).
      rewrite (forward_retry (S n) msg w c connection_closed done JUndefined _ Hc Hi Hg)
        by (vm_compute; reflexivity).
      rewrite Hrun. reflexivity.
    + rewrite Hlen. simpl. lia.
Qed.

Lemma health_timers_accumulate_witness :
  mcpClient connected = Some 0 ∧
  isConnected connected = true ∧
  isInitializing connected = false ∧
  ∃ w' calls,
    run (sendToMcpServer 4 ping) (faults 3 ++ [Resolved JNull]) connected
      = Some (w', Returned JNull, calls) ∧
    isConnected w' = true ∧
    length (intervals w') = 3 + length (intervals connected).
Proof.
  split; [reflexivity|]. split; [reflexivity|]. split; [reflexivity|].
  apply (health_timers_accumulate ping JNull 3 connected 0); reflexivity.
Defined.

(* ===================================================================== *)
(** ** Connected means monitored: proofs *)
(* ===================================================================== *)

Lemma watches_mono {R : Type} (p : Prog R) :
  ∀ holding w (post post' : Outcome R -> bool -> State -> Prop),
    (∀ o h w', post o h w' → post' o h w') →
    watches p holding w post → watches p holding w post'.
Proof.
  induction p as [r|e|k IH|f k IH|c k IH|]; intros holding w post post' Hpost; simpl.
  - apply Hpost.
  - apply Hpost.
  - apply IH, Hpost.
  - intros (H1 & H2). split; [exact H1|]. eapply IH; eauto.
  - intros (H1 & H0 & H3 & H4).
    split; [exact H1|]. split; [exact H0|]. split; [exact H3|].
    intros a w' Hw' Hh. eapply IH; eauto.
  - auto.
Qed.

Lemma watches_bind {A B : Type} (p : Prog A) (f : A -> Prog B) :
  ∀ holding w post,
    watches p holding w
      (fun o h w' => match o with
                     | Returned r => watches (f r) h w' post
                     | Thrown e => post (Thrown e) h w'
                     end) →
    watches (bind p f) holding w post.
Proof.
  induction p as [r|e|k IH|g k IH|c k IH|]; intros holding w post; simpl; auto.
  - intros (H1 & H2). split; auto.
  - intros (H1 & H0 & H3 & H4).
    split; [exact H1|]. split; [exact H0|]. split; [exact H3|].
    intros a w' Hw' Hh. apply IH, H4; auto.
Qed.

Lemma watches_try_catch {A : Type} (p : Prog A) (hd : Err -> Prog A) :
  ∀ holding w post,
    watches p holding w
      (fun o h w' => match o with
                     | Returned r => post (Returned r) h w'
                     | Thrown e => watches (hd e) h w' post
                     end) →
    watches (try_catch p hd) holding w post.
Proof.
  induction p as [r|e|k IH|g k IH|c k IH|]; intros holding w post; simpl; auto.
  - intros (H1 & H2). split; auto.
  - intros (H1 & H0 & H3 & H4).
    split; [exact H1|]. split; [exact H0|]. split; [exact H3|].
    intros a w' Hw' Hh. apply IH, H4; auto.
Qed.

Lemma watches_await_async {A : Type} (p : Prog A) :
  ∀ holding w (post : Outcome A -> bool -> State -> Prop),
    watches p holding w
      (fun o h w' => h = false ∧ monitored w' ∧ ∀ w'', monitored w'' → post o false w'') →
    watches (await_async p) holding w post.
Proof.
  induction p as [r|e|k IH|g k IH|c k IH|]; intros holding w post; simpl; auto.
  - intros (-> & H1 & H2).
    split; [exact H1|]. split; [exact I|]. split; [discriminate|].
    intros a w' Hw' _. apply H2, Hw'.
  - intros (-> & H1 & H2).
    split; [exact H1|]. split; [exact I|]. split; [discriminate|].
    intros a w' Hw' _. apply H2, Hw'.
  - intros (H1 & H2). split; auto.
  - intros (H1 & H0 & H3 & H4).
    split; [exact H1|]. split; [exact H0|]. split; [exact H3|].
    intros a w' Hw' Hh. apply IH, H4; auto.
Qed.

Lemma watches_forget {A : Type} (p : Prog A) holding w :
  watches p holding w unwatched → watches (forget p) holding w unwatched.
Proof.
  intros H. unfold forget. apply watches_try_catch, watches_bind.
  revert H. apply watches_mono. intros [r|e] h w' Hr; exact Hr.
Qed.

(** [monitored] reads three of the variables. *)
Lemma monitored_frame (w w' : State) :
  monitored w →
  mcpClient w' = mcpClient w →
  (isConnected w' = true → isConnected w = true) →
  (isConnected w' = true → intervals w' = intervals w) →
  monitored w'.
Proof.
  unfold monitored, has_client. intros Hw Hm Hc Hi Hw'.
  rewrite Hm, (Hi Hw'). apply Hw, Hc, Hw'.
Qed.

Lemma monitored_disconnected (w : State) : isConnected w = false → monitored w.
Proof. unfold monitored. intros -> H. discriminate. Qed.

Lemma monitored_settled (c : ExtCall) (w : State) :
  monitored w → monitored (settled c w).
Proof. destruct c; auto. Qed.

(** An assignment by a function that does not hold the guard. *)
Lemma watches_Put_other {R : Type} (f : State -> State) (k : Prog R) w post :
  link_fields (f w) = link_fields w →
  isInitializing (f w) = isInitializing w →
  (isConnected (f w) = true → isConnected w = true) →
  watches k false (f w) post →
  watches (Put f k) false w post.
Proof.
  intros Hl Hi Hc Hk. simpl.
  split; [intros _; split; [exact Hl|split; [congruence|exact Hc]]|].
  unfold holds_after. rewrite Hi.
  destruct (isInitializing w); exact Hk.
Qed.

#[local] Transparent initializeMcpClient.

Lemma not_connected_yet (w : State) :
  monitored w → isConnected w && has_client w = false → isConnected w = false.
Proof.
  intros Hw Hc. destruct (isConnected w) eqn:E; [|reflexivity].
  destruct (Hw E) as [Hc' _]. rewrite Hc' in Hc. discriminate.
Qed.

(** The end of an attempt that has just made the client [h]. *)
Lemma attempt_ends (h : Handle) (a : Answer) (w2 : State) :
  mcpClient w2 = Some h →
  isInitializing w2 = true →
  watches
    (try_finally
       (try_catch
          (bind (match a with
                 | Resolved v => Ret v
                 | Rejected e => Throw e
                 end)
                (fun _ =>
                   Put (set_isConnected true)
                     (Put (set_reconnectAttempts 0)
                        (Get (fun w0 =>
                           bind (if negb (has_client w0) then Ret tt
                                 else Put setInterval (Ret tt))
                                (fun _ => Ret true))))))
          initialize_failed)
       (set_isInitializing false))
    true w2 returned_unwatched.
Proof.
  intros Hm2 Hi2.
  destruct a as [v|e]; simpl; unfold holds_after, has_client; simpl;
    rewrite ?Hi2, ?Hm2; simpl; rewrite ?Hi2; simpl.
  - repeat (split; [intros Hf; first [discriminate Hf | congruence]|]).
    split; [reflexivity|]. split; [|eauto].
    intros _. unfold has_client. simpl. rewrite Hm2. split; [reflexivity|discriminate].
  - split; [intros; discriminate|].
    destruct (reconnectAttempts w2 <? MAX_RECONNECT_ATTEMPTS); simpl; rewrite ?Hi2; simpl.
    + repeat (split; [intros Hf; first [discriminate Hf | congruence]|]).
      split; [reflexivity|]. split; [|eauto]. apply monitored_disconnected. reflexivity.
    + repeat (split; [intros Hf; first [discriminate Hf | congruence]|]).
      split; [reflexivity|]. split; [|eauto]. apply monitored_disconnected. reflexivity.
Qed.

Lemma initializeMcpClient_watches (w : State) :
  monitored w → watches initializeMcpClient false w returned_unwatched.
Proof.
  intros Hw. simpl.
  destruct (isInitializing w) eqn:Hi; [split; [reflexivity|split; [exact Hw|eauto]]|].
  destruct (isConnected w && has_client w) eqn:Hc;
    [split; [reflexivity|split; [exact Hw|eauto]]|].
  pose proof (not_connected_yet w Hw Hc) as Hdis.
  simpl. unfold holds_after. simpl. rewrite Hi. simpl.
  split; [auto|].
  destruct (mcpClient w) as [c|] eqn:Hm; simpl.
  - (* a stale client is closed first *)
    split; [apply monitored_disconnected; exact Hdis|].
    split; [split; [exact Hm|discriminate]|].
    split; [intros _; exact Hdis|].
    intros a w1 Hw1 Hsame. destruct Hsame as (Hsame & Hi1 & Hc1); [reflexivity|].
    destruct a as [v|e]; simpl; unfold holds_after; simpl; rewrite ?Hi1; simpl.
    all: repeat (split; [intros Hf; first [discriminate Hf | congruence]|]).
    all: split; [apply monitored_disconnected; exact Hc1|].
    all: split; [split; [reflexivity|discriminate]|].
    all: split; [intros _; exact Hc1|].
    all: intros a2 w2 Hw2 Hsame2.
    all: destruct Hsame2 as (Hsame2 & Hi2 & Hc2); [reflexivity|].
    all: apply (attempt_ends (clients w1) a2 w2); auto.
  - unfold holds_after. simpl.
    split; [intros; discriminate|].
    split; [apply monitored_disconnected; exact Hdis|].
    split; [split; [reflexivity|discriminate]|].
    split; [intros _; exact Hdis|].
    intros a2 w2 Hw2 Hsame2. destruct Hsame2 as (Hsame2 & Hi2 & Hc2); [reflexivity|].
    apply (attempt_ends (clients w) a2 w2); auto.
Qed.

#[local] Opaque initializeMcpClient.

(** Awaiting our own [initializeMcpClient()] from code that does not hold
    the guard. *)
Lemma await_initialize_watches {R : Type} (w : State) (k : bool -> Prog R) post :
  monitored w →
  (∀ b w', monitored w' → watches (k b) false w' post) →
  watches (bind (await_async initializeMcpClient) k) false w post.
Proof.
  intros Hw Hk. apply watches_bind, watches_await_async.
  generalize (initializeMcpClient_watches w Hw). apply watches_mono.
  intros o h w' (-> & Hw' & b & ->). split; [reflexivity|]. split; [exact Hw'|].
  intros w'' Hw''. simpl. apply Hk, Hw''.
Qed.

Lemma sendToMcpServer_watches (fuel : nat) (msg : Message) :
  ∀ w, monitored w → watches (sendToMcpServer fuel msg) false w unwatched.
Proof.
  induction fuel as [|fuel IH]; intros w Hw; [split; auto|].
  simpl.
  destruct (negb (has_client w) || negb (isConnected w)) eqn:Hready; [split; auto|].
  assert (Hconn : isConnected w = true).
  { destruct (isConnected w); [reflexivity|]. rewrite orb_true_r in Hready.
    discriminate. }
  assert (Hhandler : ∀ error w1, monitored w1 →
    watches
      (if is_connection_error error
       then Put (set_isConnected false) (Ret tt);;
            await_async initializeMcpClient;;
            Get (fun w => if isConnected w && has_client w
                          then await_async (sendToMcpServer fuel msg)
                          else Throw (client_error error))
       else Throw (client_error error)) false w1 unwatched).
  { intros error w1 Hw1. destruct (is_connection_error error); [|split; auto].
    unfold mbind, Prog_bind. cbn [bind].
    apply watches_Put_other; [reflexivity|reflexivity|discriminate|].
    apply await_initialize_watches; [apply monitored_disconnected; reflexivity|].
    intros _ w2 Hw2; simpl.
    destruct (isConnected w2 && has_client w2); [|split; auto].
    apply watches_await_async.
    generalize (IH w2 Hw2); apply watches_mono.
    intros o h w3 [-> Hw3]. split; [reflexivity|]. split; [exact Hw3|].
    intros w4 Hw4. split; auto. }
  destruct (String.eqb (method msg) "tools/call"); simpl.
  all: destruct (mcpClient w) as [c|] eqn:Hm; simpl; [|split; auto].
  all: split; [exact Hw|].
  all: split; [split; [exact Hm|intros _; exact Hconn]|].
  all: split; [discriminate|].
  all: intros a w1 Hw1 _; destruct a as [v|e]; simpl; [split; auto|].
  all: apply Hhandler; exact Hw1.
Qed.

Lemma get_cookie_watches (fuel : nat) (parsed : Parsed) (w : State) :
  monitored w → watches (forget (get_cookie fuel parsed)) false w unwatched.
Proof.
  intros Hw. apply watches_forget. unfold get_cookie, template.
  apply watches_try_catch. unfold mbind, Prog_bind.
  destruct parsed as [e|v]; simpl; [split; auto|].
  destruct (destructure_url v) as [e|url]; simpl; [split; auto|].
  destruct (negb (truthy url)); simpl; [split; auto|].
  destruct (to_text url) as [e|text]; simpl; [split; auto|].
  destruct (negb (has_client w) || negb (isConnected w)); [split; auto|].
  apply watches_try_catch, watches_bind, watches_await_async.
  generalize (sendToMcpServer_watches fuel (get_cookie_message url) w Hw).
  apply watches_mono. intros o h w' [-> Hw']. split; [reflexivity|].
  split; [exact Hw'|].
  intros w'' Hw''. destruct o; simpl; split; auto.
Qed.

Lemma startup_callback_watches (w : State) :
  monitored w → watches startup_callback false w unwatched.
Proof.
  intros Hw. apply watches_forget, watches_await_async.
  generalize (initializeMcpClient_watches w Hw). apply watches_mono.
  intros o h w' (-> & Hw' & _). split; [reflexivity|]. split; [exact Hw'|].
  intros w'' Hw''. split; auto.
Qed.

Lemma reconnect_callback_watches (w : State) :
  monitored w → watches reconnect_callback false w unwatched.
Proof.
  intros Hw. unfold reconnect_callback.
  apply watches_Put_other; [reflexivity|reflexivity|auto|].
  apply watches_forget.
  assert (Hw' : monitored (set_reconnectAttempts (S (reconnectAttempts w)) w)).
  { eapply monitored_frame; eauto. }
  generalize (initializeMcpClient_watches _ Hw').
  apply watches_mono. intros o h w' (-> & Hw'' & _). split; auto.
Qed.

Lemma healthCheck_failed_watches (t : TimerId) (w : State) :
  watches (Put (set_isConnected false) (Ret tt);;
           Put (clearInterval t) (Ret tt);;
           await_async initializeMcpClient;;
           Ret tt) false w unwatched.
Proof.
  unfold mbind, Prog_bind.
  change (watches
            (Put (set_isConnected false)
               (Put (clearInterval t)
                  (bind (await_async initializeMcpClient) (fun _ => Ret tt))))
            false w unwatched).
  apply watches_Put_other; [reflexivity|reflexivity|discriminate|].
  apply watches_Put_other; [reflexivity|reflexivity|auto|].
  apply await_initialize_watches.
  - apply monitored_disconnected. reflexivity.
  - intros _ w2 Hw2. split; auto.
Qed.

Lemma healthCheck_watches (t : TimerId) (w : State) :
  monitored w → watches (healthCheck t) false w unwatched.
Proof.
  intros Hw. apply watches_forget. simpl.
  destruct (negb (has_client w) || negb (isConnected w)) eqn:Hready.
  { apply watches_Put_other; [reflexivity|reflexivity|auto|].
    split; [reflexivity|]. apply monitored_disconnected. simpl.
    destruct (isConnected w) eqn:Hc; [|reflexivity].
    destruct (Hw Hc) as [Hm _]. rewrite Hm in Hready. discriminate. }
  assert (Hconn : isConnected w = true).
  { destruct (isConnected w); [reflexivity|]. rewrite orb_true_r in Hready.
    discriminate. }
  apply watches_try_catch. unfold mbind, Prog_bind. apply watches_bind.
  simpl. destruct (mcpClient w) as [c|] eqn:Hm; simpl.
  - split; [exact Hw|].
    split; [split; [exact Hm|intros _; exact Hconn]|].
    split; [discriminate|].
    intros a w1 Hw1 _. destruct a as [v|e]; simpl; [split; auto|].
    apply (healthCheck_failed_watches t w1).
  - apply (healthCheck_failed_watches t w).
Qed.

Lemma shutdown_callback_watches (w : State) :
  monitored w → watches shutdown_callback false w unwatched.
Proof.
  intros Hw. apply watches_forget. simpl.
  destruct (mcpClient w) as [c|] eqn:Hm; simpl; [|split; auto].
  split; [exact Hw|]. split; [split; [exact Hm|discriminate]|].
  split; [discriminate|].
  intros a w' Hw' _. pose proof (monitored_settled (Close c) w' Hw') as Hs.
  destruct a; simpl; split; auto.
Qed.

(** *** One turn of the event loop *)

Lemma turn_turn {R : Type} (p : Prog R) :
  ∀ w, turn (turn p w).2 (turn p w).1 = turn p w.
Proof. induction p as [r|e|k IH|f k IH|c k IH|]; intros w; simpl; auto. Qed.

Lemma turn_watches {R : Type} (p : Prog R) :
  ∀ holding w post,
    watches p holding w post →
    (holding = true → isInitializing w = true) →
    watches (turn p w).2 (turn_holds p holding w) (turn p w).1 post ∧
    (turn_holds p holding w = true → isInitializing (turn p w).1 = true) ∧
    (holding = false → isInitializing w = true →
     link_fields (turn p w).1 = link_fields w ∧
     isInitializing (turn p w).1 = true ∧
     turn_holds p holding w = false ∧
     (isConnected (turn p w).1 = true → isConnected w = true)) ∧
    (holding = false → isInitializing w = false →
     isInitializing (turn p w).1 = turn_holds p holding w) ∧
    (holding = true → isInitializing (turn p w).1 = turn_holds p holding w).
Proof.
  induction p as [r|e|k IH|f k IH|c k IH|]; intros holding w post Hp Hh.
  1, 2, 5, 6: simpl; simpl in Hp; repeat split; auto; try congruence;
    try (intros; apply Hp; auto; fail); intros Ht; rewrite Ht; auto.
  - simpl in *. apply IH; auto.
  - simpl in Hp |- *. destruct Hp as (Hput & Hk).
    assert (Hh' : holds_after holding w (f w) = true → isInitializing (f w) = true).
    { unfold holds_after. destruct holding; [auto|].
      destruct (isInitializing w), (isInitializing (f w)); auto. }
    destruct (IH _ _ _ Hk Hh') as (H1 & H3 & H4 & H5 & H6).
    split; [exact H1|]. split; [exact H3|].
    split; [|split].
    + intros ->. intros Hw. destruct (Hput eq_refl) as (Hl & Hi & Hc).
      specialize (Hi Hw).
      assert (Hm : holds_after false w (f w) = false)
        by (unfold holds_after; rewrite Hw; reflexivity).
      rewrite Hm in *. destruct (H4 eq_refl Hi) as (Ha & Hb & Hd & He).
      repeat split; auto. congruence.
    + intros ->. intros Hw.
      assert (Hm : holds_after false w (f w) = isInitializing (f w))
        by (unfold holds_after; rewrite Hw; reflexivity).
      rewrite Hm in *.
      destruct (isInitializing (f w)) eqn:Hf; [apply H6|apply H5]; auto.
    + intros ->.
      assert (Hm : holds_after true w (f w) = isInitializing (f w)) by reflexivity.
      rewrite Hm in *.
      destruct (isInitializing (f w)) eqn:Hf; [apply H6|apply H5]; auto.
Qed.

(** *** The event loop keeps the invariant *)

Lemma resumable_frame (t : Prog unit) (holding : bool) (w w' : State) :
  resumable t holding w →
  (holding = true →
   mcpClient w' = mcpClient w ∧ (isConnected w' = true → isConnected w = true)) →
  resumable t holding w'.
Proof.
  destruct t as [| | | |c k|]; simpl; auto.
  intros (Hc & Hk) Hl.
  split.
  - intros Hh. destruct (Hl Hh) as [_ Hnot]. specialize (Hc Hh).
    destruct (isConnected w'); [|reflexivity]. rewrite Hnot in Hc; auto.
  - intros a w'' Hw'' Hh. apply Hk; auto.
    intros Hh'. destruct (Hh Hh') as (H1 & H2 & H3). destruct (Hl Hh') as [H4 _].
    split; [congruence|]. auto.
Qed.

Lemma end_of_turn_watched (p : Prog unit) (holding : bool) (w : State) :
  turn p w = (w, p) →
  watches p holding w unwatched →
  monitored w ∧
  match p with
  | Await c _ => on_target c w
  | _ => True
  end ∧
  match suspended p with
  | Some t => t = p ∧ resumable p holding w
  | None => holding = false
  end.
Proof.
  destruct p as [r|e|k|f k|c k|]; simpl; intros Ht Hp.
  - destruct Hp; auto.
  - destruct Hp; auto.
  - exfalso. revert Ht. generalize (k w). intros p Ht.
    assert (Hn : ∀ (q : Prog unit) w0, (turn q w0).2 ≠ Get k).
    { induction q; intros w0; simpl; auto; discriminate. }
    apply (Hn p w). rewrite Ht. reflexivity.
  - exfalso.
    assert (Hn : ∀ (q : Prog unit) w0, (turn q w0).2 ≠ Put f k).
    { induction q; intros w0; simpl; auto; discriminate. }
    apply (Hn k (f w)). rewrite Ht. reflexivity.
  - destruct Hp as (H1 & H0 & H3 & H4).
    split; [exact H1|]. split; [exact H0|]. split; [reflexivity|].
    split; [exact H3|exact H4].
  - destruct Hp; auto.
Qed.

Lemma turn_monitored (tasks : list (option (Prog unit))) (holder : option nat)
      (i : nat) (p : Prog unit) (w : State) :
  i < length tasks →
  (∀ j t, j ≠ i → tasks !! j = Some (Some t) →
          resumable t (bool_decide (holder = Some j)) w) →
  watches p (bool_decide (holder = Some i)) w unwatched →
  match holder with
  | Some j => isInitializing w = true ∧ (j = i ∨ ∃ t, tasks !! j = Some (Some t))
  | None => isInitializing w = false
  end →
  monitor_invariant {| world := (turn p w).1;
                       pool := <[i := suspended (turn p w).2]> tasks |}.
Proof.
  intros Hi Hothers Hp Hholder.
  set (h := bool_decide (holder = Some i)) in *.
  assert (Hh : h = true → isInitializing w = true).
  { unfold h. intros Hb. apply bool_decide_eq_true in Hb. subst holder.
    apply Hholder. }
  destruct (turn_watches p h w unwatched Hp Hh) as (H1 & H3 & H4 & H5 & H6).
  pose proof (turn_turn p w) as H2.
  destruct (turn p w) as [w' p'] eqn:Hturn. simpl in *.
  set (h' := turn_holds p h w) in *.
  destruct (end_of_turn_watched p' h' w' H2 H1) as (Hw' & _ & Hend).
  split; [exact Hw'|]. simpl.
  exists (if h' then Some i else if h then None else holder).
  split.
  - intros j t Hj. destruct (decide (j = i)) as [->|Hne].
    + rewrite list_lookup_insert_eq in Hj by exact Hi.
      injection Hj as Hj. rewrite Hj in Hend. destruct Hend as [-> Hwaits].
      replace (bool_decide ((if h' then Some i else if h then None else holder) = Some i))
        with h'; [exact Hwaits|].
      destruct h'; [rewrite bool_decide_eq_true_2; auto|].
      destruct h eqn:Hh0; [rewrite bool_decide_eq_false_2; auto; discriminate|].
      symmetry. exact Hh0.
    + rewrite list_lookup_insert_ne in Hj by auto.
      specialize (Hothers j t Hne Hj).
      destruct h eqn:Hh0.
      * (* the holder ran *)
        unfold h in Hh0. apply bool_decide_eq_true in Hh0. subst holder.
        rewrite bool_decide_eq_false_2 in Hothers by congruence.
        replace (bool_decide ((if h' then Some i else None) = Some j)) with false
          by (destruct h'; rewrite bool_decide_eq_false_2; congruence).
        eapply resumable_frame; eauto. discriminate.
      * destruct (isInitializing w) eqn:Hflag.
        -- destruct (H4 eq_refl eq_refl) as (Hl & Hf & Hh' & Hc).
           rewrite Hh'. eapply resumable_frame; eauto.
           intros _. split; [apply link_fields_client, Hl|exact Hc].
        -- destruct holder as [j0|]; [destruct Hholder; congruence|].
           rewrite bool_decide_eq_false_2 in Hothers by discriminate.
           replace (bool_decide ((if h' then Some i else None) = Some j)) with false
             by (destruct h'; rewrite bool_decide_eq_false_2; congruence).
           eapply resumable_frame; eauto. discriminate.
  - destruct h' eqn:Hh'.
    + split; [auto|].
      destruct (suspended p') as [t|] eqn:Hs; [|discriminate].
      exists t. apply list_lookup_insert_eq. exact Hi.
    + destruct h eqn:Hh0; [rewrite H6; auto|].
      destruct holder as [j0|].
      * destruct Hholder as [Hflag Hj0].
        destruct (H4 eq_refl Hflag) as (Hl & Hf & _). split; [exact Hf|].
        destruct Hj0 as [->|[t Ht]].
        { unfold h in Hh0. rewrite bool_decide_eq_true_2 in Hh0; auto. discriminate. }
        exists t. rewrite list_lookup_insert_ne; auto.
        intros <-. unfold h in Hh0. rewrite bool_decide_eq_true_2 in Hh0; auto.
        discriminate.
      * rewrite H5; auto.
Qed.

Lemma callback_watch_ready (p : Prog unit) (s : System) (w : State) :
  monitor_invariant s →
  mcpClient w = mcpClient (world s) →
  isInitializing w = isInitializing (world s) →
  isConnected w = isConnected (world s) →
  intervals w = intervals (world s) →
  (∀ w1, monitored w1 → watches p false w1 unwatched) →
  ∃ holder, watch_ready holder w (pool s ++ [None]) (length (pool s)) p.
Proof.
  intros (Hw0 & holder & Htasks & Hholder) Hl Hf Hc Hiv Hp.
  assert (Hw : monitored w).
  { eapply monitored_frame; eauto; congruence. }
  assert (Hlt : ∀ j t, pool s !! j = Some (Some t) → j < length (pool s)).
  { intros j t Hj. eapply lookup_lt_Some; eauto. }
  assert (Hnot : bool_decide (holder = Some (length (pool s))) = false).
  { apply bool_decide_eq_false_2. intros ->. destruct Hholder as [_ [t Ht]].
    apply Hlt in Ht. lia. }
  exists holder. split; [rewrite length_app; simpl; lia|].
  split; [|split].
  - intros j t Hne Hj.
    assert (Hj' : pool s !! j = Some (Some t)).
    { destruct (decide (j < length (pool s))) as [Hlt'|Hge].
      - rewrite lookup_app_l in Hj by exact Hlt'. exact Hj.
      - rewrite lookup_app_r in Hj by lia.
        destruct (j - length (pool s)) as [|n] eqn:Hd; [lia|].
        simpl in Hj. discriminate. }
    eapply resumable_frame; eauto.
  - rewrite Hnot. apply Hp, Hw.
  - destruct holder as [j|]; [|congruence].
    destruct Hholder as [Hflag [t Ht]]. split; [congruence|].
    right. exists t. rewrite lookup_app_l; eauto.
Qed.

Lemma settled_connected (c : ExtCall) (w : State) :
  isConnected (settled c w) = isConnected w.
Proof. destruct c; reflexivity. Qed.

Lemma dispatch_watch_ready (ev : Event) (s : System) w tasks i p :
  monitor_invariant s →
  dispatch ev s = Some (w, tasks, i, p) →
  ∃ holder, watch_ready holder w tasks i p.
Proof.
  intros Hs Hd. destruct ev as [|fuel parsed| |t|j a|]; simpl in Hd.
  - injection Hd as <- <- <- <-.
    apply callback_watch_ready; auto. apply startup_callback_watches.
  - injection Hd as <- <- <- <-.
    apply callback_watch_ready; auto. intros w1. apply get_cookie_watches.
  - destruct (timeouts (world s)) as [|d rest]; [discriminate|].
    injection Hd as <- <- <- <-.
    apply callback_watch_ready; auto. apply reconnect_callback_watches.
  - destruct (bool_decide (t ∈ intervals (world s))); [|discriminate].
    injection Hd as <- <- <- <-.
    apply callback_watch_ready; auto. intros w1. apply healthCheck_watches.
  - destruct (pool s !! j) as [[q|]|] eqn:Hj; try discriminate.
    destruct q as [| | | |c k|]; try discriminate.
    injection Hd as <- <- <- <-.
    destruct Hs as (Hw & holder & Htasks & Hholder).
    destruct (settled_keeps c (world s)) as (_ & Hflag & Hsame).
    pose proof (Htasks j _ Hj) as Hme. simpl in Hme.
    destruct Hme as (Hdis & Hk).
    exists holder. split; [eapply lookup_lt_Some; eauto|].
    split; [|split].
    + intros j' t Hne Hj'. specialize (Htasks j' t Hj').
      eapply resumable_frame; eauto. intros _. split; [exact Hsame|].
      rewrite settled_connected. auto.
    + apply Hk; [exact Hw|]. intros Hb. specialize (Hdis Hb).
      apply bool_decide_eq_true in Hb.
      subst holder. split; [reflexivity|]. split; [apply Hholder|exact Hdis].
    + destruct holder as [j'|]; [|congruence].
      destruct Hholder as [Hf [t Ht]]. split; [congruence|].
      right. eauto.
  - injection Hd as <- <- <- <-.
    apply callback_watch_ready; auto. apply shutdown_callback_watches.
Qed.

(** One event keeps the invariant, and the promise its callback is left
    suspended on (if any) comes from the client [mcpClient] holds. *)
Lemma step_monitored (ev : Event) (s s' : System) :
  monitor_invariant s →
  step ev s = Some s' →
  monitor_invariant s' ∧
  ∀ c, issued ev s = Some c → on_target c (world s').
Proof.
  intros Hs Hstep. unfold step in Hstep. unfold issued.
  destruct (dispatch ev s) as [[[[w tasks] i] p]|] eqn:Hd; [|discriminate].
  destruct (dispatch_watch_ready ev s w tasks i p Hs Hd)
    as (holder & Hi & Ho & Hp & Hh).
  pose proof (turn_monitored tasks holder i p w Hi Ho Hp Hh) as Hinv.
  assert (Hflag : bool_decide (holder = Some i) = true → isInitializing w = true).
  { intros Hb. apply bool_decide_eq_true in Hb. subst holder. apply Hh. }
  destruct (turn_watches p _ w unwatched Hp Hflag) as (H1 & _).
  pose proof (turn_turn p w) as H2.
  destruct (turn p w) as [w' p'] eqn:Hturn. simpl in *.
  injection Hstep as <-. split; [exact Hinv|].
  destruct (end_of_turn_watched _ _ _ H2 H1) as (_ & Hlive & _).
  simpl. destruct p'; try discriminate.
  intros c' Hc'. injection Hc' as <-. exact Hlive.
Qed.

Lemma boot_monitored : monitor_invariant boot.
Proof.
  split.
  - apply monitored_disconnected. reflexivity.
  - exists None. split; [|reflexivity].
    intros i t Hi. simpl in Hi. rewrite lookup_nil in Hi. discriminate.
Qed.

Lemma reachable_monitored (evs : list Event) :
  ∀ s0 s, monitor_invariant s0 → exec evs s0 = Some s → monitor_invariant s.
Proof.
  induction evs as [|ev rest IH]; intros s0 s Hs0 Hexec; simpl in Hexec.
  - injection Hexec as <-. exact Hs0.
  - destruct (step ev s0) as [s1|] eqn:Hstep; [|discriminate].
    apply (IH s1); auto. eapply step_monitored; eauto.
Qed.

(** Connected means monitored.  In every state the event loop can reach
    (between two turns), signals included, if [isConnected] is set then
    [mcpClient] holds a client and at least one health timer is running: a
    link the wrapper reports as connected is one it keeps checking.  (The
    client may have been closed: a signal handler closes it and clears
    nothing.) *)
Theorem connected_is_monitored (evs : list Event) (s : System) :
  exec evs boot = Some s →
  isConnected (world s) = true →
  (∃ c, mcpClient (world s) = Some c) ∧
  intervals (world s) ≠ [].
Proof.
  intros Hexec Hc.
  pose proof (reachable_monitored evs boot s boot_monitored Hexec) as [Hm _].
  destruct (Hm Hc) as [Hhas Hiv].
  split; [|exact Hiv].
  unfold has_client in Hhas. destruct (mcpClient (world s)) as [c|] eqn:Hmc;
    [|discriminate].
  exists c. reflexivity.
Qed.

(** For instance after a signal has closed the client of a connected
    wrapper. *)
Lemma connected_is_monitored_witness :
  ∃ s,
    exec closed_by_signal boot = Some s ∧
    isConnected (world s) = true ∧
    live (world s) = [] ∧
    (∃ c, mcpClient (world s) = Some c) ∧
    intervals (world s) ≠ [].
Proof.
  destruct (exec closed_by_signal boot) as [s|] eqn:Hs; [|discriminate Hs].
  exists s. split; [reflexivity|].
  assert (Hc : isConnected (world s) = true).
  { vm_compute in Hs. injection Hs as <-. reflexivity. }
  assert (Hl : live (world s) = []).
  { vm_compute in Hs. injection Hs as <-. reflexivity. }
  split; [exact Hc|]. split; [exact Hl|].
  exact (connected_is_monitored closed_by_signal s Hs Hc).
Defined.

(** What [/ping] and [/tools] report is the connection flag: in every state
    the event loop can reach, [mcpClientReady] is [isConnected] itself (the
    test of [mcpClient] beside it never decides), and the tool's status is
    [ready] exactly when [isConnected] is set. *)
Theorem ping_reports_connection (now : string) (evs : list Event) (s : System) :
  exec evs boot = Some s →
  prop "mcpClientReady" (body (Server.pong now (world s)))
    = JBool (isConnected (world s)) ∧
  prop "status" (first_item (prop "tools" (body (Server.tools (world s)))))
    = JStr (if isConnected (world s) then "ready" else "initializing").
Proof.
  intros Hexec.
  pose proof (reachable_monitored evs boot s boot_monitored Hexec) as [Hm _].
  simpl. destruct (isConnected (world s)) eqn:Hc.
  - destruct (Hm Hc) as [Hhas _]. rewrite Hhas. split; reflexivity.
  - rewrite andb_false_r. split; reflexivity.
Qed.

Lemma ping_reports_connection_witness :
  ∃ s,
    exec forwarder_reconnecting boot = Some s ∧
    prop "mcpClientReady" (body (Server.pong "2025-01-01T00:00:00.000Z" (world s)))
      = JBool (isConnected (world s)) ∧
    prop "status" (first_item (prop "tools" (body (Server.tools (world s)))))
      = JStr (if isConnected (world s) then "ready" else "initializing").
Proof.
  destruct (exec forwarder_reconnecting boot) as [s|] eqn:Hs; [|discriminate Hs].
  exists s. split; [reflexivity|].
  exact (ping_reports_connection "2025-01-01T00:00:00.000Z" forwarder_reconnecting s Hs).
Defined.

(** Every call is made on the client [mcpClient] holds, and requests go out
    only while the wrapper takes itself to be connected: whenever, in a run
    of the event loop (signals included), a callback is left suspended on a
    promise of a client ([connect], [close], [callTool], [sendRequest]), that
    client is, at that moment, the value of [mcpClient]; and if the promise
    is that of a request ([callTool], [sendRequest]), [isConnected] is set.
    (Whether that client is still open is another matter: after a signal it
    is not.) *)
Theorem calls_go_to_held_client (evs : list Event) (s s' : System) (ev : Event)
        (c : ExtCall) (h : Handle) :
  exec evs boot = Some s →
  step ev s = Some s' →
  issued ev s = Some c →
  client_of c = Some h →
  mcpClient (world s') = Some h ∧
  (is_request c = true → isConnected (world s') = true).
Proof.
  intros Hexec Hstep Hissued Hh.
  pose proof (reachable_monitored evs boot s boot_monitored Hexec) as Hs.
  destruct (step_monitored ev s s' Hs Hstep) as [_ Htarget].
  specialize (Htarget c Hissued). unfold on_target in Htarget.
  rewrite Hh in Htarget. exact Htarget.
Qed.

(** For instance, a forwarded call that goes out after a signal has closed
    the client. *)
Lemma calls_go_to_held_client_witness :
  ∃ s s',
    exec closed_by_signal boot = Some s ∧
    live (world s) = [] ∧
    step (PostGetCookie 2 (Value example_body)) s = Some s' ∧
    issued (PostGetCookie 2 (Value example_body)) s
      = Some (link_call (get_cookie_message example_url) 0) ∧
    client_of (link_call (get_cookie_message example_url) 0) = Some 0 ∧
    mcpClient (world s') = Some 0 ∧
    (is_request (link_call (get_cookie_message example_url) 0) = true →
     isConnected (world s') = true).
Proof.
  destruct (exec closed_by_signal boot) as [s|] eqn:Hs; [|discriminate Hs].
  assert (Hl : live (world s) = []).
  { vm_compute in Hs. injection Hs as <-. reflexivity. }
  assert (Hiss : issued (PostGetCookie 2 (Value example_body)) s
                 = Some (link_call (get_cookie_message example_url) 0)).
  { vm_compute in Hs. injection Hs as <-. vm_compute. reflexivity. }
  destruct (step (PostGetCookie 2 (Value example_body)) s) as [s'|] eqn:Hstep.
  - exists s, s'. split; [reflexivity|]. split; [exact Hl|]. split; [exact Hstep|].
    split; [exact Hiss|]. split; [reflexivity|].
    exact (calls_go_to_held_client closed_by_signal s s'
             (PostGetCookie 2 (Value example_body))
             (link_call (get_cookie_message example_url) 0) 0 Hs Hstep Hiss eq_refl).
  - exfalso. vm_compute in Hs. injection Hs as <-. vm_compute in Hstep.
    discriminate Hstep.
Defined.

(* ===================================================================== *)
(** ** The wrapper without reconnection *)
(* ===================================================================== *)

(** Reconnection apart, the two wrappers forward alike: on a connected
    wrapper, a call that succeeds or fails with an error that is not a
    connection fault ends in the reconnecting forwarder exactly as in the
    simple one (same result or error, same single call, same state). *)
Theorem simple_forwarder_agrees (fuel : nat) (msg : Message) (w : State) (c : Handle)
        (a : Answer) :
  mcpClient w = Some c →
  isConnected w = true →
  (∀ e, a = Rejected e → is_connection_error e = false) →
  run (sendToMcpServer (S fuel) msg) [a] w = run (Simple.sendToMcpServer msg) [a] w.
Proof.
  intros Hc Hi Ha.
  assert (Hsimple : run (Simple.sendToMcpServer msg) [a] w
                    = Some (w, match a with
                               | Resolved r => Returned r
                               | Rejected e => Thrown (client_error e)
                               end, [link_call msg c])).
  { unfold Simple.sendToMcpServer, link_call, has_client. simpl.
    unfold has_client. rewrite Hc. simpl.
    destruct (String.eqb (method msg) "tools/call"); simpl; rewrite Hc;
      destruct a; reflexivity. }
  rewrite Hsimple. destruct a as [r|e].
  - apply forward_succeeds; assumption.
  - apply forward_other_failure; auto.
Qed.

Lemma simple_forwarder_agrees_witness :
  mcpClient connected = Some 0 ∧
  isConnected connected = true ∧
  is_connection_error timed_out = false ∧
  run (sendToMcpServer 1 ping) [Rejected timed_out] connected
    = run (Simple.sendToMcpServer ping) [Rejected timed_out] connected.
Proof.
  split; [reflexivity|]. split; [reflexivity|]. split; [vm_compute; reflexivity|].
  apply (simple_forwarder_agrees 0 ping connected 0 (Rejected timed_out)).
  - reflexivity.
  - reflexivity.
  - intros e He. injection He as <-. vm_compute. reflexivity.
Defined.

(** In the simple wrapper a failed [connect] leaves the wrapper looking
    ready: [mcpClient] was assigned before [connect] was awaited and is not
    cleared, so [/ping] answers [mcpClientReady: true], and a cookie request
    that gets as far as the test (its [url] is truthy and can be written into
    the log line) is not turned away with 503 but sent to the client that
    never connected. *)
Theorem simple_ready_after_failed_connect (now : string) (w : State) (e : Err) :
  ∃ w',
    run Simple.initializeMcpClient [Rejected e] w
      = Some (w', Returned false, [Connect (clients w) MCP_SERVER_URL]) ∧
    mcpClient w' = Some (clients w) ∧
    prop "mcpClientReady" (body (Simple.pong now w')) = JBool true ∧
    ∀ v url text,
      destructure_url v = inr url →
      truthy url = true →
      to_text url = inr text →
      ∃ k, turn (Simple.get_cookie (Value v)) w'
           = (w', Await (CallTool (clients w) (JStr "chrome_get_cookie")
                                  (JObj [("url", url)]) 30000) k).
Proof.
  eexists. split; [reflexivity|]. split; [reflexivity|]. split; [reflexivity|].
  intros v url text Hd Ht Hp. unfold Simple.get_cookie, template. simpl. rewrite Hd.
  simpl. rewrite Ht. simpl. rewrite Hp. simpl. eexists. reflexivity.
Qed.
